(** * ServionX Browser: the orchestration core of the React front end

    A shallow embedding of the state-handling code of [src/App.tsx],
    [src/components/SettingsPanel.tsx], [ITToolsPanel], [VirtualKeyboard],
    [DownloadManager], [DownloadPanel] and [NewTabPage], followed by the
    properties of the specification that are settled on it and by further
    properties of the code.

    Conventions.
    - A React state cell is a field of a record; a handler is a function
      from the record to the record.  An [await invoke(...)] is a point
      where the backend's answer enters: the answer ([Resolved v] or
      [Rejected e]) is an argument of the model of the handler.
    - A JavaScript string is modelled by the UTF-8 encoding of its text
      (type [string], one [ascii] per byte).  [includes], [startsWith],
      [split] on an ASCII separator, [trim] and [parseInt] act on the bytes
      as they act on the UTF-16 code units.  Strings holding a lone
      surrogate have no UTF-8 encoding and are outside the model (on them
      [encodeURIComponent] throws [URIError]).  The buffer of the virtual
      keyboard, which is cut per code unit, is a list of code units.
    - A JavaScript number is an integer of [Z]; [NaN] is [None] in
      [number]. *)

From Stdlib Require Import List String Ascii ZArith NArith Lia Bool.
From Stdlib Require Import DecimalString DecimalPos DecimalN.
Import ListNotations.

Local Open Scope string_scope.
Local Open Scope list_scope.
Local Open Scope Z_scope.

(** ** What the backend bridge answers *)

Inductive settled (A : Type) : Type :=
| Resolved (v : A)
| Rejected (error : string).
Arguments Resolved {A} v.
Arguments Rejected {A} error.

(** ** JavaScript built-ins used by the handlers *)

Module JS.

(** [s.startsWith(p)] *)
Definition startsWith (p s : string) : bool := String.prefix p s.

(** [s.includes(p)] *)
Fixpoint includes (p s : string) : bool :=
  match s with
  | EmptyString => String.prefix p s
  | String _ s' => String.prefix p s || includes p s'
  end.

(** [s.split(sep)] for a one-character separator. *)
Fixpoint split (sep : ascii) (s : string) : list string :=
  match s with
  | EmptyString => [EmptyString]
  | String c s' =>
      if Ascii.eqb c sep then EmptyString :: split sep s'
      else match split sep s' with
           | w :: ws => String c w :: ws
           | [] => [String c EmptyString]
           end
  end.

Definition code (c : ascii) : Z := Z.of_N (N_of_ascii c).

(** White space and line terminators of ECMAScript, by UTF-8 length:
    TAB LF VT FF CR SP; U+00A0; U+1680, U+2000..U+200A, U+2028, U+2029,
    U+202F, U+205F, U+3000, U+FEFF. *)
Definition ws1 (a : ascii) : bool :=
  let n := code a in ((9 <=? n) && (n <=? 13)) || (n =? 32).

Definition ws2 (a b : ascii) : bool :=
  (code a =? 194) && (code b =? 160).

Definition ws3 (a b c : ascii) : bool :=
  let x := code a in let y := code b in let z := code c in
  ((x =? 225) && (y =? 154) && (z =? 128))
  || ((x =? 226) && (y =? 128)
      && (((128 <=? z) && (z <=? 138)) || (z =? 168) || (z =? 169) || (z =? 175)))
  || ((x =? 226) && (y =? 129) && (z =? 159))
  || ((x =? 227) && (y =? 128) && (z =? 128))
  || ((x =? 239) && (y =? 187) && (z =? 191)).

(** Drops the white space at the head of [s]; with [back] the bytes of
    [s] come last-first, as when the end of a string is trimmed. *)
Fixpoint dropSpace (back : bool) (s : string) : string :=
  match s with
  | EmptyString => s
  | String a r1 =>
      if ws1 a then dropSpace back r1
      else match r1 with
           | EmptyString => s
           | String b r2 =>
               if (if back then ws2 b a else ws2 a b) then dropSpace back r2
               else match r2 with
                    | EmptyString => s
                    | String c r3 =>
                        if (if back then ws3 c b a else ws3 a b c)
                        then dropSpace back r3
                        else s
                    end
           end
  end.

Fixpoint rev_onto (acc s : string) : string :=
  match s with
  | EmptyString => acc
  | String c s' => rev_onto (String c acc) s'
  end.

Definition reverse (s : string) : string := rev_onto EmptyString s.

(** [s.trim()] *)
Definition trim (s : string) : string :=
  reverse (dropSpace true (reverse (dropSpace false s))).

(** Numbers: [None] is [NaN]. *)
Definition number : Type := option Z.

Definition isNaN (n : number) : bool :=
  match n with None => true | Some _ => false end.

Definition digit_value (c : ascii) : option Z :=
  let n := code c in
  if (48 <=? n) && (n <=? 57) then Some (n - 48)
  else if (97 <=? n) && (n <=? 122) then Some (n - 87)
  else if (65 <=? n) && (n <=? 90) then Some (n - 55)
  else None.

Definition radix_digit (R : Z) (c : ascii) : option Z :=
  match digit_value c with
  | Some d => if d <? R then Some d else None
  | None => None
  end.

(** The value of the longest prefix of [s] made of digits of radix [R];
    [acc] is the value read so far, [None] when no digit was read. *)
Fixpoint digits (R : Z) (acc : number) (s : string) : number :=
  match s with
  | EmptyString => acc
  | String c s' =>
      match radix_digit R c with
      | Some d =>
          digits R (Some (R * match acc with Some v => v | None => 0 end + d)) s'
      | None => acc
      end
  end.

(** [parseInt(s)] with no radix argument: leading white space, a sign,
    a [0x]/[0X] prefix selecting radix 16, then the digits. *)
Definition parseInt (s : string) : number :=
  let s0 := dropSpace false s in
  let '(sign, s1) :=
    match s0 with
    | String "-" r => (-1, r)
    | String "+" r => (1, r)
    | _ => (1, s0)
    end in
  let '(R, s2) :=
    match s1 with
    | String "0" (String "x" r) => (16, r)
    | String "0" (String "X" r) => (16, r)
    | _ => (10, s1)
    end in
  option_map (Z.mul sign) (digits R None s2).

Definition hex_digit (n : Z) : ascii :=
  ascii_of_N (Z.to_N (if n <? 10 then 48 + n else 55 + n)).

(** Characters [encodeURIComponent] leaves as they are:
    letters, digits and [- _ . ! ~ * ' ( )]. *)
Definition unreserved (c : ascii) : bool :=
  let n := code c in
  ((65 <=? n) && (n <=? 90)) || ((97 <=? n) && (n <=? 122))
  || ((48 <=? n) && (n <=? 57))
  || (n =? 45) || (n =? 95) || (n =? 46) || (n =? 33) || (n =? 126)
  || (n =? 42) || (n =? 39) || (n =? 40) || (n =? 41).

(** [encodeURIComponent(s)]: every other byte of the UTF-8 encoding
    becomes [%XX] with upper-case hexadecimal digits. *)
Fixpoint encodeURIComponent (s : string) : string :=
  match s with
  | EmptyString => EmptyString
  | String c s' =>
      if unreserved c then String c (encodeURIComponent s')
      else String "%" (String (hex_digit (code c / 16))
                         (String (hex_digit (code c mod 16))
                            (encodeURIComponent s')))
  end.

(** [n.toString()] for a non-negative integer. *)
Definition toString (n : N) : string := NilZero.string_of_uint (N.to_uint n).

(** [xs.findIndex(p)], [-1] when nothing satisfies [p]. *)
Fixpoint findIndex {A : Type} (p : A -> bool) (xs : list A) : Z :=
  match xs with
  | [] => -1
  | x :: xs' =>
      if p x then 0
      else let i := findIndex p xs' in if i <? 0 then -1 else i + 1
  end.

(** [xs[i]], [undefined] (here [None]) outside the array. *)
Definition index {A : Type} (xs : list A) (i : Z) : option A :=
  if i <? 0 then None else nth_error xs (Z.to_nat i).

(** [s.slice(from, to)] on a sequence of code units. *)
Definition slice {A : Type} (from to : Z) (s : list A) : list A :=
  let len := Z.of_nat (List.length s) in
  let k := if from <? 0 then Z.max (len + from) 0 else Z.min from len in
  let e := if to <? 0 then Z.max (len + to) 0 else Z.min to len in
  firstn (Z.to_nat (Z.max (e - k) 0)) (skipn (Z.to_nat k) s).

(** Truthiness of a string: [''] is falsy. *)
Definition truthy (s : string) : bool :=
  match s with EmptyString => false | _ => true end.

End JS.

(** [Promise.all] of three calls: the triple when all three resolve, a
    rejection as soon as one rejects.  Which reason is carried when several
    reject depends on timing; the handlers below only log it. *)
Definition promise_all3 {A B C : Type}
    (a : settled A) (b : settled B) (c : settled C) : settled (A * B * C) :=
  match a, b, c with
  | Resolved x, Resolved y, Resolved z => Resolved (x, y, z)
  | Rejected e, _, _ => Rejected e
  | _, Rejected e, _ => Rejected e
  | _, _, Rejected e => Rejected e
  end.

(** The call rejected. *)
Definition rejected {A : Type} (a : settled A) : Prop :=
  match a with Rejected _ => True | Resolved _ => False end.

(** ** [src/lib/types.ts] *)

Module Types.

Record Tab : Type := {
  id : string;
  title : string;
  url : string;
  isLoading : bool;
  isSecure : bool;
  isWhitelisted : option bool;
  favicon : option string }.

(** [Partial<Tab>] *)
Record PartialTab : Type := {
  p_id : option string;
  p_title : option string;
  p_url : option string;
  p_isLoading : option bool;
  p_isSecure : option bool;
  p_isWhitelisted : option bool;
  p_favicon : option string }.

Record PrivacyStatus : Type := {
  identityId : string;
  isProtected : bool;
  trackersBlocked : Z;
  fingerprintsBlocked : Z }.

Record FakePlugin : Type := {
  plugin_name : string;
  plugin_description : string;
  plugin_filename : string }.

Record FakeFingerprint : Type := {
  sessionId : string;
  hardwareConcurrency : Z;
  deviceMemory : Z;
  canvasNoiseSeed : Z;
  webglVendor : string;
  webglRenderer : string;
  webglVersion : string;
  audioNoiseSeed : Z;
  installedFonts : list string;
  plugins : list FakePlugin;
  maxTouchPoints : Z;
  touchSupport : bool }.

(** Coordinates are carried, never computed on: they are kept as the
    text the backend sent. *)
Record FakeGeolocation : Type := {
  latitude : string;
  longitude : string;
  accuracy : string;
  city : string;
  country : string;
  countryCode : string }.

Record FakeUserAgent : Type := {
  full : string;
  appVersion : string;
  platform : string;
  vendor : string;
  browserName : string;
  browserVersion : string;
  osName : string;
  osVersion : string }.

Record FakeIdentity : Type := {
  identity_id : string;
  createdAt : string;
  fingerprint : FakeFingerprint;
  geolocation : FakeGeolocation;
  userAgent : FakeUserAgent;
  ipHeaders : list (string * string);
  timezone : string;
  language : string;
  doNotTrack : bool }.

Inductive LogLevel : Type := Debug | Info | Warning | Error | Security.

Record LogEntry : Type := {
  log_id : string;
  timestamp : string;
  level : LogLevel;
  category : string;
  message : string;
  details : option string }.

Record PingResult : Type := {
  ping_host : string;
  ping_ip : option string;
  reachable : bool;
  ping_latencyMs : option Z;
  packetsSent : Z;
  packetsReceived : Z;
  packetLossPercent : Z }.

Record PortScanResult : Type := {
  scan_host : string;
  port : Z;
  open : bool;
  service : option string;
  scan_latencyMs : option Z }.

Record DnsResult : Type := {
  domain : string;
  addresses : list string;
  lookupTimeMs : Z;
  recordType : string }.

Record HttpResult : Type := {
  http_url : string;
  statusCode : Z;
  statusText : string;
  headers : list (string * string);
  body : option string;
  http_latencyMs : Z;
  contentLength : option Z }.

End Types.

(** ** [src/App.tsx]: tabs, navigation, identity *)

Module App.
Import Types.

Record TabState : Type := {
  tabs : list Tab;
  activeTabId : string }.

(** The literal [{ id, title: 'New Tab', url: '', isLoading: false,
    isSecure: true }] of [useState], [addTab] and [closeTab]. *)
Definition newTabLiteral (i : string) : Tab :=
  {| id := i; title := "New Tab"; url := ""; isLoading := false;
     isSecure := true; isWhitelisted := None; favicon := None |}.

Definition initial : TabState :=
  {| tabs := [newTabLiteral "1"]; activeTabId := "1" |}.

(** [addTab]; [now] is the value of [Date.now()]. *)
Definition addTab (now : N) (st : TabState) : TabState :=
  let newTab := newTabLiteral (JS.toString now) in
  {| tabs := tabs st ++ [newTab]; activeTabId := id newTab |}.

(** The updater [closeTab] hands to [setTabs]. *)
Definition closeTab_setTabs (tabId : string) (now : N) (prev : list Tab)
  : list Tab :=
  let newTabs := filter (fun t => negb (String.eqb (id t) tabId)) prev in
  if Nat.eqb (List.length newTabs) 0 then [newTabLiteral (JS.toString now)]
  else newTabs.

(** [newTabs[0].id] *)
Definition first_id (newTabs : list Tab) : string :=
  match newTabs with t :: _ => id t | [] => "" end.

(** The updater [closeTab] hands to [setActiveTabId]; [tabs] is the list
    the callback closed over. *)
Definition closeTab_setActiveTabId (tabs : list Tab) (tabId : string)
    (prev : string) : string :=
  let currentIndex := JS.findIndex (fun t => String.eqb (id t) prev) tabs in
  let newTabs := filter (fun t => negb (String.eqb (id t) tabId)) tabs in
  if Nat.eqb (List.length newTabs) 0 then ""
  else
    let newIndex := Z.min currentIndex (Z.of_nat (List.length newTabs) - 1) in
    match JS.index newTabs newIndex with
    | Some t => if JS.truthy (id t) then id t else first_id newTabs
    | None => first_id newTabs
    end.

(** [closeTab]: the backend notification is fire-and-forget and its
    failure is swallowed, so it does not appear. *)
Definition closeTab (tabId : string) (now : N) (st : TabState) : TabState :=
  {| tabs := closeTab_setTabs tabId now (tabs st);
     activeTabId :=
       if String.eqb (activeTabId st) tabId
       then closeTab_setActiveTabId (tabs st) tabId (activeTabId st)
       else activeTabId st |}.

(** [{ ...tab, ...updates }] *)
Definition merge (tab : Tab) (updates : PartialTab) : Tab :=
  let pick {A : Type} (o : option A) (d : A) : A :=
    match o with Some v => v | None => d end in
  {| id := pick (p_id updates) (id tab);
     title := pick (p_title updates) (title tab);
     url := pick (p_url updates) (url tab);
     isLoading := pick (p_isLoading updates) (isLoading tab);
     isSecure := pick (p_isSecure updates) (isSecure tab);
     isWhitelisted :=
       match p_isWhitelisted updates with
       | Some v => Some v
       | None => isWhitelisted tab
       end;
     favicon :=
       match p_favicon updates with
       | Some v => Some v
       | None => favicon tab
       end |}.

Definition updateTab (tabId : string) (updates : PartialTab) (st : TabState)
  : TabState :=
  {| tabs := map (fun tab => if String.eqb (id tab) tabId
                             then merge tab updates else tab) (tabs st);
     activeTabId := activeTabId st |}.

(** [onTabSelect] of the tab shown at position [i] of the tab bar. *)
Definition selectTab (i : nat) (st : TabState) : TabState :=
  match nth_error (tabs st) i with
  | Some t => {| tabs := tabs st; activeTabId := id t |}
  | None => st
  end.

(** [tabs.find(t => t.id === activeTabId) || tabs[0]] *)
Definition activeTab (st : TabState) : option Tab :=
  match find (fun t => String.eqb (id t) (activeTabId st)) (tabs st) with
  | Some t => Some t
  | None => hd_error (tabs st)
  end.

(** The value of [finalUrl] in [navigateTo]. *)
Definition finalUrl (url : string) : string :=
  if negb (JS.includes "." url) || JS.includes " " url
  then String.append "https://duckduckgo.com/?q=" (JS.encodeURIComponent url)
  else if negb (JS.startsWith "http://" url)
          && negb (JS.startsWith "https://" url)
  then String.append "https://" url
  else url.

(** The specification's wording of the same classification, for
    comparison with [finalUrl]: a search for inputs without a dot or with
    a space, [https://] put before inputs without an explicit scheme, the
    input itself otherwise.  An explicit scheme is read as in RFC 3986:
    a letter, then letters, digits, [+], [-] or [.], then [://]. *)
Definition scheme_char (c : ascii) : bool :=
  let n := JS.code c in
  ((65 <=? n) && (n <=? 90)) || ((97 <=? n) && (n <=? 122))
  || ((48 <=? n) && (n <=? 57)) || (n =? 43) || (n =? 45) || (n =? 46).

Definition alpha (c : ascii) : bool :=
  let n := JS.code c in
  ((65 <=? n) && (n <=? 90)) || ((97 <=? n) && (n <=? 122)).

Fixpoint scheme_tail (s : string) : bool :=
  match s with
  | EmptyString => false
  | String c r =>
      if Ascii.eqb c ":" then JS.startsWith "//" r
      else scheme_char c && scheme_tail r
  end.

Definition has_explicit_scheme_spec (s : string) : bool :=
  match s with
  | EmptyString => false
  | String c r => alpha c && scheme_tail r
  end.

Definition resolve_spec (input : string) : string :=
  if negb (JS.includes "." input) || JS.includes " " input
  then String.append "https://duckduckgo.com/?q=" (JS.encodeURIComponent input)
  else if negb (has_explicit_scheme_spec input)
  then String.append "https://" input
  else input.

(** [navigateTo] up to its first [await]. *)
Definition navigateTo_begin (url : string) (st : TabState) : TabState :=
  let final := finalUrl url in
  updateTab (activeTabId st)
    {| p_id := None; p_title := None; p_url := Some final;
       p_isLoading := Some true;
       p_isSecure := Some (JS.startsWith "https://" final);
       p_isWhitelisted := None; p_favicon := None |} st.

(** The [catch] branch of [navigateTo]; [captured] is the [activeTabId]
    the callback closed over when the navigation began. *)
Definition navigateTo_catch (captured : string) (st : TabState) : TabState :=
  updateTab captured
    {| p_id := None; p_title := None; p_url := None;
       p_isLoading := Some false; p_isSecure := None;
       p_isWhitelisted := None; p_favicon := None |} st.

(** The operations of the tab registry. *)
Inductive TabOp : Type :=
| Open (now : N)
| Close (tabId : string) (now : N)
| Select (position : nat).

Definition step (st : TabState) (op : TabOp) : TabState :=
  match op with
  | Open now => addTab now st
  | Close tabId now => closeTab tabId now st
  | Select i => selectTab i st
  end.

Definition run (ops : list TabOp) : TabState := fold_left step ops initial.

(** Every id of the registry is a non-empty text, as ['1'] and the
    decimal text of a clock value are. *)
Definition ids_not_empty (st : TabState) : Prop :=
  Forall (fun t => id t <> "") (tabs st).

(** *** Identity *)

Record PrivacyDetails : Type := {
  d_fingerprint : option FakeFingerprint;
  d_geolocation : option FakeGeolocation;
  d_userAgent : option FakeUserAgent }.

Record IdentityState : Type := {
  privacyStatus : PrivacyStatus;
  privacyDetails : PrivacyDetails }.

Definition identity_initial : IdentityState :=
  {| privacyStatus := {| identityId := ""; isProtected := true;
                         trackersBlocked := 0; fingerprintsBlocked := 0 |};
     privacyDetails := {| d_fingerprint := None; d_geolocation := None;
                          d_userAgent := None |} |}.

(** [{ ...prev, identityId }] *)
Definition with_identityId (i : string) (prev : PrivacyStatus) : PrivacyStatus :=
  {| identityId := i; isProtected := isProtected prev;
     trackersBlocked := trackersBlocked prev;
     fingerprintsBlocked := fingerprintsBlocked prev |}.

(** [initPrivacy] *)
Definition initPrivacy
    (fp : settled FakeFingerprint) (geo : settled FakeGeolocation)
    (ua : settled FakeUserAgent) (st : IdentityState) : IdentityState :=
  match promise_all3 fp geo ua with
  | Resolved (f, g, u) =>
      {| privacyStatus := with_identityId (sessionId f) (privacyStatus st);
         privacyDetails := {| d_fingerprint := Some f; d_geolocation := Some g;
                              d_userAgent := Some u |} |}
  | Rejected _ => st
  end.

(** [regenerateIdentity]: [regen] answers [regenerate_identity], the
    other three the detail fetches. *)
Definition regenerateIdentity
    (regen : settled FakeIdentity)
    (fp : settled FakeFingerprint) (geo : settled FakeGeolocation)
    (ua : settled FakeUserAgent) (st : IdentityState) : IdentityState :=
  match regen with
  | Rejected _ => st
  | Resolved identity =>
      let status :=
        with_identityId (sessionId (fingerprint identity)) (privacyStatus st) in
      match promise_all3 fp geo ua with
      | Resolved (f, g, u) =>
          {| privacyStatus := status;
             privacyDetails := {| d_fingerprint := Some f;
                                  d_geolocation := Some g;
                                  d_userAgent := Some u |} |}
      | Rejected _ =>
          {| privacyStatus := status; privacyDetails := privacyDetails st |}
      end
  end.

(** Two identities, for the examples. *)
Definition sample_fingerprint (session : string) : FakeFingerprint :=
  {| sessionId := session; hardwareConcurrency := 8; deviceMemory := 16;
     canvasNoiseSeed := 42; webglVendor := "Intel Inc.";
     webglRenderer := "Intel Iris"; webglVersion := "WebGL 2.0";
     audioNoiseSeed := 7; installedFonts := ["Arial"]; plugins := [];
     maxTouchPoints := 0; touchSupport := false |}.

Definition sample_geolocation (town : string) : FakeGeolocation :=
  {| latitude := "48.85"; longitude := "2.35"; accuracy := "50";
     city := town; country := "France"; countryCode := "FR" |}.

Definition sample_userAgent (browser : string) : FakeUserAgent :=
  {| full := "Mozilla/5.0"; appVersion := "5.0"; platform := "Linux x86_64";
     vendor := ""; browserName := browser; browserVersion := "120";
     osName := "Linux"; osVersion := "6" |}.

Definition sample_identity (session : string) : FakeIdentity :=
  {| identity_id := "id"; createdAt := "2025-01-01T00:00:00Z";
     fingerprint := sample_fingerprint session;
     geolocation := sample_geolocation "Lyon";
     userAgent := sample_userAgent "Firefox";
     ipHeaders := []; timezone := "Europe/Paris"; language := "fr-FR";
     doNotTrack := true |}.

End App.

(** ** [src/components/SettingsPanel.tsx]: the two password gates and the
       feature toggles *)

Module SettingsPanel.
Import Types.

Record Settings : Type := {
  torEnabled : bool;
  httpsOnly : bool;
  blockTrackers : bool;
  blockMalware : bool;
  scanDownloads : bool;
  stripMetadata : bool;
  blockWebRTC : bool;
  fakeGeolocation : bool;
  spoofFingerprint : bool;
  stripReferrer : bool;
  partitionStorage : bool;
  autoRegenerateIdentity : bool;
  secureKeyboard : bool;
  blockAds : bool }.

(** [keyof typeof settings] *)
Inductive SettingKey : Type :=
| KtorEnabled | KhttpsOnly | KblockTrackers | KblockMalware
| KscanDownloads | KstripMetadata | KblockWebRTC | KfakeGeolocation
| KspoofFingerprint | KstripReferrer | KpartitionStorage
| KautoRegenerateIdentity | KsecureKeyboard | KblockAds.

(** [settings[key]] *)
Definition get (key : SettingKey) (s : Settings) : bool :=
  match key with
  | KtorEnabled => torEnabled s
  | KhttpsOnly => httpsOnly s
  | KblockTrackers => blockTrackers s
  | KblockMalware => blockMalware s
  | KscanDownloads => scanDownloads s
  | KstripMetadata => stripMetadata s
  | KblockWebRTC => blockWebRTC s
  | KfakeGeolocation => fakeGeolocation s
  | KspoofFingerprint => spoofFingerprint s
  | KstripReferrer => stripReferrer s
  | KpartitionStorage => partitionStorage s
  | KautoRegenerateIdentity => autoRegenerateIdentity s
  | KsecureKeyboard => secureKeyboard s
  | KblockAds => blockAds s
  end.

Definition key_eqb (a b : SettingKey) : bool :=
  match a, b with
  | KtorEnabled, KtorEnabled | KhttpsOnly, KhttpsOnly
  | KblockTrackers, KblockTrackers | KblockMalware, KblockMalware
  | KscanDownloads, KscanDownloads | KstripMetadata, KstripMetadata
  | KblockWebRTC, KblockWebRTC | KfakeGeolocation, KfakeGeolocation
  | KspoofFingerprint, KspoofFingerprint | KstripReferrer, KstripReferrer
  | KpartitionStorage, KpartitionStorage
  | KautoRegenerateIdentity, KautoRegenerateIdentity
  | KsecureKeyboard, KsecureKeyboard | KblockAds, KblockAds => true
  | _, _ => false
  end.

(** [{ ...prev, [key]: v }] *)
Definition set (key : SettingKey) (v : bool) (prev : Settings) : Settings :=
  let at_ (k : SettingKey) := if key_eqb key k then v else get k prev in
  {| torEnabled := at_ KtorEnabled;
     httpsOnly := at_ KhttpsOnly;
     blockTrackers := at_ KblockTrackers;
     blockMalware := at_ KblockMalware;
     scanDownloads := at_ KscanDownloads;
     stripMetadata := at_ KstripMetadata;
     blockWebRTC := at_ KblockWebRTC;
     fakeGeolocation := at_ KfakeGeolocation;
     spoofFingerprint := at_ KspoofFingerprint;
     stripReferrer := at_ KstripReferrer;
     partitionStorage := at_ KpartitionStorage;
     autoRegenerateIdentity := at_ KautoRegenerateIdentity;
     secureKeyboard := at_ KsecureKeyboard;
     blockAds := at_ KblockAds |}.

(** The state cells of the panel the gates and the toggles write. *)
Record Panel : Type := {
  isAuthenticated : bool;
  settingsPassword : string;
  settingsPasswordError : string;
  isLogsAuthenticated : bool;
  logsPassword : string;
  logsPasswordError : string;
  settings : Settings;
  logs : list LogEntry }.

Definition initial : Panel :=
  {| isAuthenticated := false; settingsPassword := "";
     settingsPasswordError := "";
     isLogsAuthenticated := false; logsPassword := "";
     logsPasswordError := "";
     settings :=
       {| torEnabled := false; httpsOnly := true; blockTrackers := true;
          blockMalware := true; scanDownloads := true; stripMetadata := true;
          blockWebRTC := true; fakeGeolocation := true;
          spoofFingerprint := true; stripReferrer := true;
          partitionStorage := true; autoRegenerateIdentity := false;
          secureKeyboard := true; blockAds := true |};
     logs := [] |}.

(** [handleSettingsLogin]; [answer] is what [unlock_settings] gives.  On
    success it also starts [loadSettings], [loadData] and
    [generateSecurityLogs], which write the cells [settings],
    [fingerprint], [geolocation], [userAgent], [whitelist], [logs] and
    [securityLogs] when their own calls settle, and none of the six
    authentication cells. *)
Definition handleSettingsLogin (answer : settled bool) (st : Panel) : Panel :=
  match answer with
  | Resolved true =>
      {| isAuthenticated := true;
         settingsPassword := settingsPassword st;
         settingsPasswordError := "";
         isLogsAuthenticated := isLogsAuthenticated st;
         logsPassword := logsPassword st;
         logsPasswordError := logsPasswordError st;
         settings := settings st; logs := logs st |}
  | Resolved false =>
      {| isAuthenticated := isAuthenticated st;
         settingsPassword := settingsPassword st;
         settingsPasswordError := "Incorrect password";
         isLogsAuthenticated := isLogsAuthenticated st;
         logsPassword := logsPassword st;
         logsPasswordError := logsPasswordError st;
         settings := settings st; logs := logs st |}
  | Rejected _ =>
      {| isAuthenticated := isAuthenticated st;
         settingsPassword := settingsPassword st;
         settingsPasswordError := "Authentication failed";
         isLogsAuthenticated := isLogsAuthenticated st;
         logsPassword := logsPassword st;
         logsPasswordError := logsPasswordError st;
         settings := settings st; logs := logs st |}
  end.

(** [handleLogsLogin]; [answer] is what [unlock_logs] gives, [logData]
    what [get_encrypted_logs] gives after a successful unlock. *)
Definition handleLogsLogin (answer : settled bool)
    (logData : settled (list LogEntry)) (st : Panel) : Panel :=
  match answer with
  | Resolved true =>
      {| isAuthenticated := isAuthenticated st;
         settingsPassword := settingsPassword st;
         settingsPasswordError := settingsPasswordError st;
         isLogsAuthenticated := true;
         logsPassword := logsPassword st;
         logsPasswordError := "";
         settings := settings st;
         logs := match logData with
                 | Resolved l => l
                 | Rejected _ => logs st
                 end |}
  | Resolved false =>
      {| isAuthenticated := isAuthenticated st;
         settingsPassword := settingsPassword st;
         settingsPasswordError := settingsPasswordError st;
         isLogsAuthenticated := isLogsAuthenticated st;
         logsPassword := logsPassword st;
         logsPasswordError := "Incorrect password";
         settings := settings st; logs := logs st |}
  | Rejected _ =>
      {| isAuthenticated := isAuthenticated st;
         settingsPassword := settingsPassword st;
         settingsPasswordError := settingsPasswordError st;
         isLogsAuthenticated := isLogsAuthenticated st;
         logsPassword := logsPassword st;
         logsPasswordError := "Authentication failed";
         settings := settings st; logs := logs st |}
  end.

(** [handleClose]: the four cells are reset before the two lock calls,
    whose failure is only logged. *)
Definition handleClose (st : Panel) : Panel :=
  {| isAuthenticated := false;
     settingsPassword := "";
     settingsPasswordError := settingsPasswordError st;
     isLogsAuthenticated := false;
     logsPassword := "";
     logsPasswordError := logsPasswordError st;
     settings := settings st; logs := logs st |}.

(** The effect on [isOpen]: [isOpen] is the new value of the prop. *)
Definition openEffect (isOpen : bool) (st : Panel) : Panel :=
  if isOpen then
    {| isAuthenticated := false;
       settingsPassword := "";
       settingsPasswordError := "";
       isLogsAuthenticated := false;
       logsPassword := "";
       logsPasswordError := "";
       settings := settings st; logs := logs st |}
  else st.

(** [onChange] of the two password inputs. *)
Definition setSettingsPassword (v : string) (st : Panel) : Panel :=
  {| isAuthenticated := isAuthenticated st;
     settingsPassword := v;
     settingsPasswordError := settingsPasswordError st;
     isLogsAuthenticated := isLogsAuthenticated st;
     logsPassword := logsPassword st;
     logsPasswordError := logsPasswordError st;
     settings := settings st; logs := logs st |}.

Definition setLogsPassword (v : string) (st : Panel) : Panel :=
  {| isAuthenticated := isAuthenticated st;
     settingsPassword := settingsPassword st;
     settingsPasswordError := settingsPasswordError st;
     isLogsAuthenticated := isLogsAuthenticated st;
     logsPassword := v;
     logsPasswordError := logsPasswordError st;
     settings := settings st; logs := logs st |}.

(** [setSettings(updater)] *)
Definition setSettings (updater : Settings -> Settings) (st : Panel) : Panel :=
  {| isAuthenticated := isAuthenticated st;
     settingsPassword := settingsPassword st;
     settingsPasswordError := settingsPasswordError st;
     isLogsAuthenticated := isLogsAuthenticated st;
     logsPassword := logsPassword st;
     logsPasswordError := logsPasswordError st;
     settings := updater (settings st); logs := logs st |}.

(** [toggleSetting] up to its [await]: [newValue] is computed from the
    [settings] of the render the click happened in, and kept for the
    rest of the call. *)
Definition toggleSetting_begin (key : SettingKey) (st : Panel) : bool * Panel :=
  let newValue := negb (get key (settings st)) in
  (newValue, setSettings (set key newValue) st).

(** [toggleSetting] after [set_setting] settled; [st] is the state at
    that moment. *)
Definition toggleSetting_end (key : SettingKey) (newValue : bool)
    (answer : settled unit) (st : Panel) : Panel :=
  match answer with
  | Resolved _ => st
  | Rejected _ => setSettings (set key (negb newValue)) st
  end.

(** A click on a toggle with nothing else happening before the call
    settles. *)
Definition toggleSetting (key : SettingKey) (answer : settled unit)
    (st : Panel) : Panel :=
  let '(newValue, st1) := toggleSetting_begin key st in
  toggleSetting_end key newValue answer st1.

(** What can happen to the two gates. *)
Inductive GateEvent : Type :=
| TypeSettingsPassword (v : string)
| TypeLogsPassword (v : string)
| SettingsLogin (answer : settled bool)
| LogsLogin (answer : settled bool) (logData : settled (list LogEntry))
| ClosePanel
| OpenPanel.

Definition step (st : Panel) (ev : GateEvent) : Panel :=
  match ev with
  | TypeSettingsPassword v => setSettingsPassword v st
  | TypeLogsPassword v => setLogsPassword v st
  | SettingsLogin answer => handleSettingsLogin answer st
  | LogsLogin answer logData => handleLogsLogin answer logData st
  | ClosePanel => handleClose st
  | OpenPanel => openEffect true st
  end.

(** The answer of [get_all_settings]: a key may be missing. *)
Record BackendSettings : Type := {
  tor_enabled : option bool;
  https_only : option bool;
  block_trackers : option bool;
  block_malware : option bool;
  scan_downloads : option bool;
  strip_metadata : option bool;
  block_webrtc : option bool;
  fake_geolocation : option bool;
  spoof_fingerprint : option bool;
  strip_referrer : option bool;
  partition_storage : option bool;
  auto_regenerate_identity : option bool;
  secure_keyboard : option bool;
  block_ads : option bool }.

(** [v ?? d] *)
Definition nullish (v : option bool) (d : bool) : bool :=
  match v with Some b => b | None => d end.

(** [loadSettings] *)
Definition loadSettings (answer : settled BackendSettings) (st : Panel) : Panel :=
  match answer with
  | Resolved backendSettings =>
      setSettings
        (fun _ =>
           {| torEnabled := nullish (tor_enabled backendSettings) false;
              httpsOnly := nullish (https_only backendSettings) true;
              blockTrackers := nullish (block_trackers backendSettings) true;
              blockMalware := nullish (block_malware backendSettings) true;
              scanDownloads := nullish (scan_downloads backendSettings) true;
              stripMetadata := nullish (strip_metadata backendSettings) true;
              blockWebRTC := nullish (block_webrtc backendSettings) true;
              fakeGeolocation := nullish (fake_geolocation backendSettings) true;
              spoofFingerprint := nullish (spoof_fingerprint backendSettings) true;
              stripReferrer := nullish (strip_referrer backendSettings) true;
              partitionStorage := nullish (partition_storage backendSettings) true;
              autoRegenerateIdentity :=
                nullish (auto_regenerate_identity backendSettings) false;
              secureKeyboard := nullish (secure_keyboard backendSettings) true;
              blockAds := nullish (block_ads backendSettings) true |}) st
  | Rejected _ => st
  end.

(** The field of the backend's answer that [loadSettings] reads for a
    toggle. *)
Definition backend_value (key : SettingKey) (b : BackendSettings) : option bool :=
  match key with
  | KtorEnabled => tor_enabled b
  | KhttpsOnly => https_only b
  | KblockTrackers => block_trackers b
  | KblockMalware => block_malware b
  | KscanDownloads => scan_downloads b
  | KstripMetadata => strip_metadata b
  | KblockWebRTC => block_webrtc b
  | KfakeGeolocation => fake_geolocation b
  | KspoofFingerprint => spoof_fingerprint b
  | KstripReferrer => strip_referrer b
  | KpartitionStorage => partition_storage b
  | KautoRegenerateIdentity => auto_regenerate_identity b
  | KsecureKeyboard => secure_keyboard b
  | KblockAds => block_ads b
  end.

(** The two cells of the whitelist tab. *)
Record Whitelist : Type := {
  whitelist : list string;
  newDomain : string }.

(** [addToWhitelist]: the domain handed to [add_to_whitelist], none when
    the input is blank. *)
Definition addToWhitelist_request (rendered : Whitelist) : option string :=
  if JS.truthy (JS.trim (newDomain rendered))
  then Some (JS.trim (newDomain rendered))
  else None.

(** [addToWhitelist] once the call settled.  [rendered] holds the cells
    of the render the click happened in: the new list is built from
    them, not from the current list. *)
Definition addToWhitelist (rendered : Whitelist) (answer : settled unit)
    (st : Whitelist) : Whitelist :=
  if JS.truthy (JS.trim (newDomain rendered)) then
    match answer with
    | Resolved _ =>
        {| whitelist := whitelist rendered ++ [JS.trim (newDomain rendered)];
           newDomain := "" |}
    | Rejected _ => st
    end
  else st.

(** [removeFromWhitelist(domain)], with the same reading of [rendered]. *)
Definition removeFromWhitelist (rendered : Whitelist) (domain : string)
    (answer : settled unit) (st : Whitelist) : Whitelist :=
  match answer with
  | Resolved _ =>
      {| whitelist := filter (fun d => negb (String.eqb d domain))
                        (whitelist rendered);
         newDomain := newDomain st |}
  | Rejected _ => st
  end.

End SettingsPanel.

(** ** [ITToolsPanel] (second component of
       [src/components/BrowserChrome.tsx]): the remote shell and the port
       scan *)

Module ITToolsPanel.

Record Shell : Type := {
  sshHost : string;
  sshPort : string;
  sshUser : string;
  sshPassword : string;
  sshConnected : bool;
  sshOutput : list string;
  sshCommand : string;
  connectionId : string;
  isLoading : bool }.

Definition initial : Shell :=
  {| sshHost := ""; sshPort := "22"; sshUser := ""; sshPassword := "";
     sshConnected := false; sshOutput := []; sshCommand := "";
     connectionId := ""; isLoading := false |}.

(** [setSshOutput(updater)] *)
Definition setSshOutput (updater : list string -> list string) (st : Shell)
  : Shell :=
  {| sshHost := sshHost st; sshPort := sshPort st; sshUser := sshUser st;
     sshPassword := sshPassword st; sshConnected := sshConnected st;
     sshOutput := updater (sshOutput st); sshCommand := sshCommand st;
     connectionId := connectionId st; isLoading := isLoading st |}.

Definition setIsLoading (v : bool) (st : Shell) : Shell :=
  {| sshHost := sshHost st; sshPort := sshPort st; sshUser := sshUser st;
     sshPassword := sshPassword st; sshConnected := sshConnected st;
     sshOutput := sshOutput st; sshCommand := sshCommand st;
     connectionId := connectionId st; isLoading := v |}.

Definition setConnection (id : string) (connected : bool) (st : Shell) : Shell :=
  {| sshHost := sshHost st; sshPort := sshPort st; sshUser := sshUser st;
     sshPassword := sshPassword st; sshConnected := connected;
     sshOutput := sshOutput st; sshCommand := sshCommand st;
     connectionId := id; isLoading := isLoading st |}.

Definition setSshCommand (v : string) (st : Shell) : Shell :=
  {| sshHost := sshHost st; sshPort := sshPort st; sshUser := sshUser st;
     sshPassword := sshPassword st; sshConnected := sshConnected st;
     sshOutput := sshOutput st; sshCommand := v;
     connectionId := connectionId st; isLoading := isLoading st |}.

Definition setSshHost (v : string) (st : Shell) : Shell :=
  {| sshHost := v; sshPort := sshPort st; sshUser := sshUser st;
     sshPassword := sshPassword st; sshConnected := sshConnected st;
     sshOutput := sshOutput st; sshCommand := sshCommand st;
     connectionId := connectionId st; isLoading := isLoading st |}.

(** [handleSshConnect] up to its [await]. *)
Definition handleSshConnect_begin (st : Shell) : Shell :=
  setSshOutput
    (fun _ => [String.append "Connecting to " (String.append (sshHost st) "...")])
    (setIsLoading true st).

(** [handleSshConnect] once [ssh_connect] settled; a resolved answer
    carries [result.id]. *)
Definition handleSshConnect_end (answer : settled string) (st : Shell) : Shell :=
  setIsLoading false
    match answer with
    | Resolved id =>
        setSshOutput (fun prev => prev ++ ["Connected successfully!"; ""])
          (setConnection id true st)
    | Rejected error =>
        setSshOutput (fun prev => prev ++ [String.append "Error: " error]) st
    end.

(** [handleSshDisconnect] *)
Definition handleSshDisconnect (answer : settled unit) (st : Shell) : Shell :=
  match answer with
  | Resolved _ =>
      setConnection "" false
        (setSshOutput (fun prev => prev ++ ["Disconnected."]) st)
  | Rejected error =>
      setSshOutput (fun prev => prev ++ [String.append "Error: " error]) st
  end.

(** [handleSshExecute] up to its [await]; the flag tells whether the
    call went on to [ssh_execute]. *)
Definition handleSshExecute_begin (st : Shell) : bool * Shell :=
  if negb (JS.truthy (JS.trim (sshCommand st))) then (false, st)
  else (true,
        setSshOutput (fun prev => prev ++ [String.append "$ " (sshCommand st)]) st).

(** What [ssh_execute] resolves to: [{ stdout?, stderr? }]. *)
Record ExecResult : Type := {
  stdout : option string;
  stderr : option string }.

Definition present (o : option string) : option string :=
  match o with
  | Some s => if JS.truthy s then Some s else None
  | None => None
  end.

(** [handleSshExecute] once [ssh_execute] settled. *)
Definition handleSshExecute_end (answer : settled ExecResult) (st : Shell)
  : Shell :=
  match answer with
  | Resolved result =>
      let st1 :=
        match present (stdout result) with
        | Some out => setSshOutput (fun prev => prev ++ [out]) st
        | None => st
        end in
      let st2 :=
        match present (stderr result) with
        | Some err =>
            setSshOutput (fun prev => prev ++ [String.append "stderr: " err]) st1
        | None => st1
        end in
      setSshCommand "" st2
  | Rejected error =>
      setSshOutput (fun prev => prev ++ [String.append "Error: " error]) st
  end.

(** What can happen to the shell session. *)
Inductive ShellEvent : Type :=
| TypeHost (v : string)
| TypeCommand (v : string)
| ConnectClicked
| ConnectSettled (answer : settled string)
| DisconnectSettled (answer : settled unit)
| ExecuteEntered
| ExecuteSettled (answer : settled ExecResult).

Definition step (st : Shell) (ev : ShellEvent) : Shell :=
  match ev with
  | TypeHost v => setSshHost v st
  | TypeCommand v => setSshCommand v st
  | ConnectClicked => handleSshConnect_begin st
  | ConnectSettled answer => handleSshConnect_end answer st
  | DisconnectSettled answer => handleSshDisconnect answer st
  | ExecuteEntered => snd (handleSshExecute_begin st)
  | ExecuteSettled answer => handleSshExecute_end answer st
  end.

Definition run (evs : list ShellEvent) : Shell := fold_left step evs initial.

(** [new] is [old] with lines added at its end. *)
Definition extends (old new : list string) : Prop :=
  exists added : list string, new = old ++ added.

(** The [ports] of [handlePortScan]:
    [portRange.split(',').map(p => parseInt(p.trim())).filter(p => !isNaN(p))] *)
Definition ports (portRange : string) : list JS.number :=
  filter (fun p => negb (JS.isNaN p))
    (map (fun p => JS.parseInt (JS.trim p)) (JS.split "," portRange)).

(** A text made of the digits [0] to [9] only. *)
Definition is_digit (c : ascii) : bool :=
  (48 <=? JS.code c) && (JS.code c <=? 57).

Fixpoint decimal (s : string) : bool :=
  match s with
  | EmptyString => true
  | String c r => is_digit c && decimal r
  end.

(** *** Network tools and the HTTP probe *)

Inductive NetworkTool : Type := ping | port_tool | dns.

(** [networkResult] is typed [any]: what it holds is one of the three
    answers. *)
Inductive NetworkResult : Type :=
| OfPing (r : Types.PingResult)
| OfPortScan (r : list Types.PortScanResult)
| OfDns (r : Types.DnsResult).

(** The cells the network and HTTP handlers use; [busy] is the cell
    [isLoading], the one the shell shares. *)
Record Tools : Type := {
  networkHost : string;
  networkTool : NetworkTool;
  portRange : string;
  networkResult : option NetworkResult;
  busy : bool;
  httpUrl : string;
  httpMethod : string;
  httpResult : option Types.HttpResult }.


Definition setBusy (v : bool) (st : Tools) : Tools :=
  {| networkHost := networkHost st; networkTool := networkTool st;
     portRange := portRange st; networkResult := networkResult st;
     busy := v; httpUrl := httpUrl st; httpMethod := httpMethod st;
     httpResult := httpResult st |}.

Definition setNetworkResult (r : NetworkResult) (st : Tools) : Tools :=
  {| networkHost := networkHost st; networkTool := networkTool st;
     portRange := portRange st; networkResult := Some r;
     busy := busy st; httpUrl := httpUrl st; httpMethod := httpMethod st;
     httpResult := httpResult st |}.


Definition setHttpResult (r : Types.HttpResult) (st : Tools) : Tools :=
  {| networkHost := networkHost st; networkTool := networkTool st;
     portRange := portRange st; networkResult := networkResult st;
     busy := busy st; httpUrl := httpUrl st; httpMethod := httpMethod st;
     httpResult := Some r |}.


(** [handlePing], [handlePortScan], [handleDnsLookup] once their call
    settled. *)
Definition handlePing (answer : settled Types.PingResult) (st : Tools) : Tools :=
  setBusy false
    match answer with
    | Resolved result => setNetworkResult (OfPing result) st
    | Rejected _ => st
    end.

Definition handlePortScan (answer : settled (list Types.PortScanResult))
    (st : Tools) : Tools :=
  setBusy false
    match answer with
    | Resolved result => setNetworkResult (OfPortScan result) st
    | Rejected _ => st
    end.

Definition handleDnsLookup (answer : settled Types.DnsResult) (st : Tools)
  : Tools :=
  setBusy false
    match answer with
    | Resolved result => setNetworkResult (OfDns result) st
    | Rejected _ => st
    end.

(** [handleHttpRequest] once [http_request] settled; [rendered] holds
    the cells of the render the click happened in. *)
Definition handleHttpRequest (rendered : Tools)
    (answer : settled Types.HttpResult) (st : Tools) : Tools :=
  setBusy false
    match answer with
    | Resolved result => setHttpResult result st
    | Rejected error =>
        setHttpResult
          {| Types.http_url := httpUrl rendered;
             Types.statusCode := 0;
             Types.statusText := String.append "Error: " error;
             Types.headers := [];
             Types.body := None;
             Types.http_latencyMs := 0;
             Types.contentLength := None |} st
    end.



End ITToolsPanel.

(** ** [DownloadManager] (second component of
       [src/components/SettingsPanel.tsx]): the polled list and its
       counters *)

Module DownloadManager.

Inductive ScanResult : Type :=
| Clean
| Suspicious (reason : string)
| Malware (threat_name : string).

(** An item of the answer of [get_downloads]. *)
Record DownloadItem : Type := {
  id : string;
  url : string;
  filename : string;
  save_path : option string;
  size_total : option Z;
  size_downloaded : option Z;
  state : option string;
  scan_result : option ScanResult;
  file_hash : option string;
  error : option string;
  started_at : Z;
  completed_at : option Z }.

(** An item of the local list: the backend's fields and the three the
    poll adds. *)
Record Row : Type := {
  item : DownloadItem;
  size : option Z;
  downloaded : Z;
  status : option string }.

Record Stats : Type := {
  total_downloads : Z;
  total_scanned : Z;
  threats_blocked : Z;
  pending : Z;
  in_progress : Z }.

Record Manager : Type := {
  downloads : list Row;
  stats : Stats }.

Definition initial : Manager :=
  {| downloads := [];
     stats := {| total_downloads := 0; total_scanned := 0;
                 threats_blocked := 0; pending := 0; in_progress := 0 |} |}.

(** [d.state === v] *)
Definition state_is (v : string) (d : DownloadItem) : bool :=
  match state d with Some s => String.eqb s v | None => false end.

(** [d.error?.includes('threat')] as a condition *)
Definition error_mentions_threat (d : DownloadItem) : bool :=
  match error d with Some e => JS.includes "threat" e | None => false end.

(** [xs.filter(p).length] *)
Definition count (p : DownloadItem -> bool) (data : list DownloadItem) : Z :=
  Z.of_nat (List.length (filter p data)).

(** [{ ...d, size: d.size_total || null, downloaded: d.size_downloaded || 0,
      status: d.state }] *)
Definition row_of (d : DownloadItem) : Row :=
  {| item := d;
     size := match size_total d with
             | Some n => if n =? 0 then None else Some n
             | None => None
             end;
     downloaded := match size_downloaded d with
                   | Some n => n
                   | None => 0
                   end;
     status := state d |}.

Definition stats_of (data : list DownloadItem) : Stats :=
  {| total_downloads := Z.of_nat (List.length data);
     total_scanned :=
       count (fun d => state_is "Completed" d || state_is "Safe" d) data;
     threats_blocked :=
       count (fun d => state_is "Failed" d && error_mentions_threat d) data;
     pending := count (state_is "Pending") data;
     in_progress := count (state_is "Downloading") data |}.

(** [loadDownloads], one tick of the poll; [answer] is what
    [get_downloads] gives. *)
Definition loadDownloads (answer : settled (list DownloadItem)) (st : Manager)
  : Manager :=
  match answer with
  | Resolved data =>
      {| downloads := map row_of data; stats := stats_of data |}
  | Rejected _ => st
  end.

End DownloadManager.

(** ** [VirtualKeyboard] (third component of
       [src/components/BrowserChrome.tsx]) *)

Module VirtualKeyboard.

(** The text of the preview, one UTF-16 code unit per element.  The
    [layout] cell is written by [loadLayout] and read by the rendering
    only; it is left out. *)
Definition text : Type := list Z.

Definition text_of (s : string) : text :=
  map JS.code (list_ascii_of_string s).

(** [String.fromCharCode(n)] *)
Definition fromCharCode (n : Z) : text := [n mod 65536].

Record Keyboard : Type := {
  isShift : bool;
  isCaps : bool;
  shuffled : bool;
  inputValue : text }.

Definition initial : Keyboard :=
  {| isShift := false; isCaps := false; shuffled := false; inputValue := [] |}.

(** What [process_virtual_key] resolves to, by its [type]; a [Character]
    may carry a [Character] field with the code of the character. *)
Inductive KeyResult : Type :=
| Character (code : option Z)
| Backspace
| Enter
| Space
| ModifierToggled (modifier : string) (active : bool)
| OtherType.

Definition setInputValue (updater : text -> text) (st : Keyboard) : Keyboard :=
  {| isShift := isShift st; isCaps := isCaps st; shuffled := shuffled st;
     inputValue := updater (inputValue st) |}.

(** [handleKeyPress(key)] once [process_virtual_key] settled: the new
    state and the calls of [onInput], in order.  [key] is [key.key]. *)
Definition handleKeyPress (key : text) (answer : settled KeyResult)
    (st : Keyboard) : Keyboard * list text :=
  match answer with
  | Rejected _ => (st, [])
  | Resolved (Character c) =>
      (setInputValue
         (fun prev => prev ++ match c with
                              | Some n => fromCharCode n
                              | None => key
                              end) st,
       [key])
  | Resolved Backspace =>
      (setInputValue (fun prev => JS.slice 0 (-1) prev) st,
       [text_of "Backspace"])
  | Resolved Enter => (st, [text_of "Enter"])
  | Resolved Space =>
      (setInputValue (fun prev => prev ++ text_of " ") st, [text_of " "])
  | Resolved (ModifierToggled modifier active) =>
      (if String.eqb modifier "Shift"
       then {| isShift := active; isCaps := isCaps st;
               shuffled := shuffled st; inputValue := inputValue st |}
       else if String.eqb modifier "CapsLock"
       then {| isShift := isShift st; isCaps := active;
               shuffled := shuffled st; inputValue := inputValue st |}
       else st,
       [])
  | Resolved OtherType => (st, [])
  end.

(** A run of key presses, each with what the backend answered. *)
Definition press (st : Keyboard) (k : text * settled KeyResult) : Keyboard :=
  fst (handleKeyPress (fst k) (snd k) st).

Definition presses (ks : list (text * settled KeyResult)) (st : Keyboard)
  : Keyboard :=
  fold_left press ks st.

(** A code unit is a number below [2^16]. *)
Definition code_units (t : text) : Prop :=
  Forall (fun u => 0 <= u < 65536) t.

End VirtualKeyboard.

(** ** [DownloadPanel] (third component of
       [src/components/SettingsPanel.tsx]) *)

Module DownloadPanel.

Record Download : Type := {
  id : string;
  url : string;
  filename : string;
  save_path : string;
  size_total : option Z;
  size_downloaded : Z;
  state : string;
  speed_bps : Z;
  error : option string }.

Record DetectedMedia : Type := {
  media_id : string;
  title : option string;
  media_url : string;
  page_url : string;
  media_type : string;
  duration : option Z }.

(** The backend calls the handlers issue, in the order they issue them. *)
Inductive Call : Type :=
| download_video (url : string) (filename : string)
| execute_download (id : string)
| get_downloads.

(** [video.title || 'video'] *)
Definition video_filename (video : DetectedMedia) : string :=
  match title video with
  | Some t => if JS.truthy t then t else "video"
  | None => "video"
  end.

(** [downloadVideo(video)]: the calls issued. *)
Definition downloadVideo (video : DetectedMedia) (answer : settled Download)
  : list Call :=
  download_video (media_url video) (video_filename video) ::
  match answer with
  | Resolved download => [execute_download (id download); get_downloads]
  | Rejected _ => []
  end.

End DownloadPanel.

(** ** [src/components/NewTabPage.tsx] and the address bar of
       [BrowserChrome] *)

Module NewTabPage.

(** [handleSearch]: the argument of [onNavigate], none when nothing is
    called. *)
Definition handleSearch (searchQuery : string) : option string :=
  if JS.truthy (JS.trim searchQuery) then Some searchQuery else None.

End NewTabPage.

(** * Properties *)

(** ** The built-ins on sample inputs *)

Example split_keeps_empty_entries :
  JS.split "," "22,,80," = ["22"; ""; "80"; ""].
Proof. reflexivity. Qed.

Example trim_both_ends : JS.trim "  ls -l  " = "ls -l".
Proof. reflexivity. Qed.

Example parseInt_samples :
  map JS.parseInt ["22"; " 80"; "abc"; ""; "12abc"; "-7"; "0x1F"; "0x"; "+"]
  = [Some 22; Some 80; None; None; Some 12; Some (-7); Some 31; None; None].
Proof. reflexivity. Qed.

Example encodeURIComponent_sample :
  JS.encodeURIComponent "a b/c?d=e&f.g~" = "a%20b%2Fc%3Fd%3De%26f.g~".
Proof. reflexivity. Qed.

Example slice_samples :
  JS.slice 0 (-1) [104; 105] = [104] /\ JS.slice 0 (-1) (@nil Z) = [].
Proof. split; reflexivity. Qed.

Example findIndex_samples :
  JS.findIndex (Z.eqb 3) [1; 2; 3] = 2 /\ JS.findIndex (Z.eqb 4) [1; 2; 3] = -1.
Proof. split; reflexivity. Qed.

(** ** Tab registry *)

Section TabRegistry.
Import Types App.

Lemma toString_not_empty (n : N) : JS.toString n <> "".
Proof.
  unfold JS.toString, NilZero.string_of_uint.
  destruct (N.to_uint n); simpl; discriminate.
Qed.

Lemma closeTab_setTabs_not_empty (tabId : string) (now : N) (prev : list Tab) :
  closeTab_setTabs tabId now prev <> [].
Proof.
  unfold closeTab_setTabs.
  destruct (filter _ prev) as [|t rest] eqn:E; simpl; discriminate.
Qed.

Lemma step_keeps_tabs (st : TabState) (op : TabOp) :
  tabs st <> [] -> tabs (step st op) <> [].
Proof.
  intros Hne. destruct op as [now|tabId now|i]; simpl.
  - intros H. apply app_eq_nil in H. destruct H as [_ H]. discriminate.
  - apply closeTab_setTabs_not_empty.
  - unfold selectTab. destruct (nth_error (tabs st) i); assumption.
Qed.

Lemma fold_keeps_tabs (ops : list TabOp) :
  forall st, tabs st <> [] -> tabs (fold_left step ops st) <> [].
Proof.
  induction ops as [|op ops IH]; intros st Hne; simpl.
  - assumption.
  - apply IH, step_keeps_tabs, Hne.
Qed.

(** C1.  Whatever operations are applied to the initial registry, its
    tab list holds at least one tab (every prefix of a sequence is a
    sequence, so this holds after each operation); and closing the only
    tab of a registry leaves exactly one tab, the blank one
    [{title: 'New Tab', url: '', isLoading: false, isSecure: true}],
    with the clock's value as its id. *)
Theorem tab_list_never_empty :
  (forall ops : list TabOp, (1 <= List.length (tabs (run ops)))%nat)
  /\ (forall (t : Tab) (active : string) (now : N),
        tabs (closeTab (id t) now {| tabs := [t]; activeTabId := active |})
        = [ {| id := JS.toString now; title := "New Tab"; url := "";
               isLoading := false; isSecure := true;
               isWhitelisted := None; favicon := None |} ]).
Proof.
  split.
  - intros ops.
    assert (H : tabs (run ops) <> []).
    { apply fold_keeps_tabs. simpl. discriminate. }
    destruct (tabs (run ops)); [contradiction | simpl; lia].
  - intros t active now. simpl. unfold closeTab_setTabs. simpl.
    rewrite String.eqb_refl. reflexivity.
Qed.

Lemma findIndex_found {A : Type} (p : A -> bool) (xs : list A) :
  (exists x, In x xs /\ p x = true) -> 0 <= JS.findIndex p xs.
Proof.
  induction xs as [|x xs IH]; intros [y [Hin Hp]]; simpl.
  - contradiction.
  - destruct (p x) eqn:Px; [lia|].
    destruct Hin as [->|Hin]; [congruence|].
    assert (H : 0 <= JS.findIndex p xs) by (apply IH; eauto).
    destruct (JS.findIndex p xs <? 0) eqn:E; lia.
Qed.

Lemma index_in_range {A : Type} (xs : list A) (i : Z) :
  0 <= i < Z.of_nat (List.length xs) ->
  exists x, JS.index xs i = Some x /\ In x xs.
Proof.
  intros Hi. unfold JS.index.
  destruct (i <? 0) eqn:E; [lia|].
  destruct (nth_error xs (Z.to_nat i)) as [x|] eqn:N.
  - exists x. split; [reflexivity|]. eapply nth_error_In, N.
  - apply nth_error_None in N. lia.
Qed.

Lemma step_keeps_ids (st : TabState) (op : TabOp) :
  ids_not_empty st -> ids_not_empty (step st op).
Proof.
  unfold ids_not_empty. intros H. destruct op as [now|tabId now|i]; simpl.
  - apply Forall_app. split; [assumption|].
    constructor; [apply toString_not_empty | constructor].
  - unfold closeTab_setTabs.
    destruct (filter _ (tabs st)) as [|t rest] eqn:E; simpl.
    + constructor; [apply toString_not_empty | constructor].
    + rewrite <- E. apply Forall_forall. intros x Hx.
      apply filter_In in Hx. destruct Hx as [Hx _].
      rewrite Forall_forall in H. apply H, Hx.
  - unfold selectTab. destruct (nth_error (tabs st) i); assumption.
Qed.

Lemma run_ids_not_empty (ops : list TabOp) : ids_not_empty (run ops).
Proof.
  unfold run.
  assert (G : forall st, ids_not_empty st -> ids_not_empty (fold_left step ops st)).
  { induction ops as [|op ops IH]; intros st H; simpl; [assumption|].
    apply IH, step_keeps_ids, H. }
  apply G. unfold ids_not_empty. simpl.
  constructor; [discriminate | constructor].
Qed.

(** Closing the active tab while other tabs remain: the list becomes the
    remaining tabs, and the active id becomes the id of the remaining tab
    at position [min(oldIndex, newLength - 1)]. *)
Lemma close_active_tab_clamps (ops : list TabOp) (tabId : string) (now : N) :
  let st := run ops in
  let remaining := filter (fun t => negb (String.eqb (id t) tabId)) (tabs st) in
  let oldIndex := JS.findIndex (fun t => String.eqb (id t) tabId) (tabs st) in
  activeTabId st = tabId ->
  In tabId (map id (tabs st)) ->
  remaining <> [] ->
  exists t,
    JS.index remaining (Z.min oldIndex (Z.of_nat (List.length remaining) - 1))
    = Some t
    /\ tabs (closeTab tabId now st) = remaining
    /\ activeTabId (closeTab tabId now st) = id t.
Proof.
  intros st remaining oldIndex Hactive Hin Hrem.
  assert (Hlen : (List.length remaining <> 0)%nat).
  { destruct remaining; [contradiction | simpl; lia]. }
  assert (Hold : 0 <= oldIndex).
  { apply findIndex_found. apply in_map_iff in Hin.
    destruct Hin as [t [Ht Hint]]. exists t. split; [assumption|].
    rewrite Ht. apply String.eqb_refl. }
  destruct (index_in_range remaining
              (Z.min oldIndex (Z.of_nat (List.length remaining) - 1)))
    as [t [Ht Hint]]; [lia|].
  exists t. split; [exact Ht|].
  unfold closeTab, closeTab_setTabs, closeTab_setActiveTabId. simpl.
  rewrite Hactive, String.eqb_refl.
  fold remaining. fold oldIndex.
  apply Nat.eqb_neq in Hlen. rewrite Hlen.
  split; [reflexivity|].
  rewrite Ht.
  assert (Hid : id t <> "").
  { pose proof (run_ids_not_empty ops) as H. unfold ids_not_empty in H.
    rewrite Forall_forall in H. apply H.
    apply filter_In in Hint. apply Hint. }
  destruct (id t); [contradiction | reflexivity].
Qed.

Lemma close_active_tab_clamps_example :
  activeTabId (closeTab "7" 9 (run [Open 5; Open 6; Open 7])) = "6".
Proof.
  destruct (close_active_tab_clamps [Open 5; Open 6; Open 7] "7" 9)
    as [t [Ht [_ Ha]]].
  - reflexivity.
  - simpl. auto.
  - discriminate.
  - rewrite Ha. vm_compute in Ht. injection Ht as <-. reflexivity.
Defined.

(** C2, at the input where the code departs from it.  Closing the only
    tab of the initial registry at clock value [now] leaves the fresh
    blank tab, whose id is the text of [now], and sets the active id to
    the empty text: no tab of the list has the active id, a navigation
    then updates no tab, and only the fallback [|| tabs[0]] of [activeTab]
    still reaches the fresh tab. *)
Theorem close_last_tab_active_id (now : N) :
  let st := closeTab "1" now initial in
  tabs st = [newTabLiteral (JS.toString now)]
  /\ activeTabId st = ""
  /\ activeTabId st <> id (newTabLiteral (JS.toString now))
  /\ find (fun t => String.eqb (id t) (activeTabId st)) (tabs st) = None
  /\ tabs (navigateTo_begin "example.com" st) = tabs st
  /\ activeTab st = Some (newTabLiteral (JS.toString now))
  /\ activeTabId (addTab now initial) = id (newTabLiteral (JS.toString now)).
Proof.
  assert (E : String.eqb (JS.toString now) "" = false).
  { apply String.eqb_neq, toString_not_empty. }
  assert (A : closeTab_setActiveTabId [newTabLiteral "1"] "1" "1" = "")
    by reflexivity.
  assert (T : closeTab_setTabs "1" now [newTabLiteral "1"]
              = [newTabLiteral (JS.toString now)]) by reflexivity.
  cbv zeta. unfold activeTab, navigateTo_begin. simpl. rewrite A, T, E.
  repeat split; try reflexivity.
  intros H. symmetry in H. revert H. apply toString_not_empty.
Qed.

End TabRegistry.

(** ** Navigation *)

Section Navigation.
Import App.

(** C3, as the specification words it, fails on an input with a scheme
    other than [http] and [https]: [ftp://x.com] has a dot, no space and
    an explicit scheme, so the wording returns it unchanged, while
    [navigateTo] puts [https://] before it. *)
Lemma finalUrl_other_scheme :
  JS.includes "." "ftp://x.com" = true
  /\ JS.includes " " "ftp://x.com" = false
  /\ has_explicit_scheme_spec "ftp://x.com" = true
  /\ resolve_spec "ftp://x.com" = "ftp://x.com"
  /\ finalUrl "ftp://x.com" = "https://ftp://x.com"
  /\ finalUrl "ftp://x.com" <> resolve_spec "ftp://x.com".
Proof.
  repeat split; try reflexivity. vm_compute. discriminate.
Qed.

(** C3, amended.  [navigateTo] classifies every input by three tests on
    its text: an input with no ['.'] or with a space becomes the search
    URL [https://duckduckgo.com/?q=] followed by the percent-encoded
    input; any other input that starts with neither [http://] nor
    [https://] gets [https://] put before it; an input that starts with
    [http://] or [https://] is kept as it is.  So ["openai"] gives a
    search URL, ["example.com"] gives ["https://example.com"] and
    ["http://x.com"] is unchanged. *)
Theorem finalUrl_classification :
  (forall url : string,
      (JS.includes "." url = false \/ JS.includes " " url = true ->
       finalUrl url
       = String.append "https://duckduckgo.com/?q=" (JS.encodeURIComponent url))
      /\ (JS.includes "." url = true -> JS.includes " " url = false ->
          JS.startsWith "http://" url = false ->
          JS.startsWith "https://" url = false ->
          finalUrl url = String.append "https://" url)
      /\ (JS.includes "." url = true -> JS.includes " " url = false ->
          JS.startsWith "http://" url = true
          \/ JS.startsWith "https://" url = true ->
          finalUrl url = url))
  /\ finalUrl "openai" = "https://duckduckgo.com/?q=openai"
  /\ finalUrl "example.com" = "https://example.com"
  /\ finalUrl "http://x.com" = "http://x.com".
Proof.
  split; [|repeat split; reflexivity].
  intros url. unfold finalUrl. repeat split.
  - intros [H|H]; rewrite H; [reflexivity|].
    rewrite orb_true_r. reflexivity.
  - intros H1 H2 H3 H4. rewrite H1, H2, H3, H4. reflexivity.
  - intros H1 H2 [H|H]; rewrite H1, H2, H; simpl; [reflexivity|].
    rewrite andb_false_r. reflexivity.
Qed.

Lemma finalUrl_classification_witness :
  finalUrl "hello world.com" = "https://duckduckgo.com/?q=hello%20world.com"
  /\ finalUrl "servionx.io/docs" = "https://servionx.io/docs"
  /\ finalUrl "https://servionx.io" = "https://servionx.io".
Proof.
  destruct finalUrl_classification as [H _].
  split; [|split].
  - destruct (H "hello world.com") as [H1 _].
    rewrite H1; [reflexivity | right; reflexivity].
  - destruct (H "servionx.io/docs") as [_ [H2 _]].
    rewrite H2; reflexivity.
  - destruct (H "https://servionx.io") as [_ [_ H3]].
    apply H3; [reflexivity | reflexivity | right; reflexivity].
Defined.

(** On the inputs whose scheme, if any, is [http] or [https], the code
    and the specification's wording agree. *)
Lemma finalUrl_agrees_with_spec (url : string) :
  has_explicit_scheme_spec url
  = JS.startsWith "http://" url || JS.startsWith "https://" url ->
  finalUrl url = resolve_spec url.
Proof.
  intros H. unfold finalUrl, resolve_spec. rewrite H.
  rewrite negb_orb. reflexivity.
Qed.

End Navigation.

(** ** Identity *)

Section Identity.
Import Types App.

Lemma promise_all3_rejected {A B C : Type}
    (a : settled A) (b : settled B) (c : settled C) :
  rejected a \/ rejected b \/ rejected c -> rejected (promise_all3 a b c).
Proof.
  destruct a, b, c; simpl; tauto.
Qed.

(** C4.  When [regenerate_identity] resolves, [identityId] is the
    [sessionId] of the fingerprint it returned, whatever the three detail
    fetches do; and when one of the three rejects, the three displayed
    detail objects are exactly the previous ones. *)
Theorem regenerate_adopts_id_keeps_details
    (identity : FakeIdentity)
    (fp : settled FakeFingerprint) (geo : settled FakeGeolocation)
    (ua : settled FakeUserAgent) (st : IdentityState) :
  let st' := regenerateIdentity (Resolved identity) fp geo ua st in
  identityId (privacyStatus st') = sessionId (fingerprint identity)
  /\ (rejected fp \/ rejected geo \/ rejected ua ->
      privacyDetails st' = privacyDetails st).
Proof.
  simpl. split.
  - destruct (promise_all3 fp geo ua) as [[[f g] u]|e]; reflexivity.
  - intros H. apply promise_all3_rejected in H.
    destruct (promise_all3 fp geo ua) as [[[f g] u]|e]; [contradiction|].
    reflexivity.
Qed.

End Identity.

Lemma regenerate_adopts_id_keeps_details_witness :
  let st :=
    App.initPrivacy (Resolved (App.sample_fingerprint "session-a"))
      (Resolved (App.sample_geolocation "Paris"))
      (Resolved (App.sample_userAgent "Chrome")) App.identity_initial in
  let st' :=
    App.regenerateIdentity (Resolved (App.sample_identity "session-b"))
      (Resolved (App.sample_fingerprint "session-b"))
      (Rejected "geolocation unavailable")
      (Resolved (App.sample_userAgent "Firefox")) st in
  Types.identityId (App.privacyStatus st') = "session-b"
  /\ App.privacyDetails st' = App.privacyDetails st
  /\ App.d_fingerprint (App.privacyDetails st')
     = Some (App.sample_fingerprint "session-a").
Proof.
  cbv zeta.
  destruct (regenerate_adopts_id_keeps_details
              (App.sample_identity "session-b")
              (Resolved (App.sample_fingerprint "session-b"))
              (Rejected "geolocation unavailable")
              (Resolved (App.sample_userAgent "Firefox"))
              (App.initPrivacy (Resolved (App.sample_fingerprint "session-a"))
                 (Resolved (App.sample_geolocation "Paris"))
                 (Resolved (App.sample_userAgent "Chrome"))
                 App.identity_initial)) as [Hid Hkeep].
  split; [exact Hid|].
  split; [apply Hkeep; right; left; exact I|].
  rewrite Hkeep; [reflexivity | right; left; exact I].
Defined.

(** ** The two password gates *)

Section Gates.
Import SettingsPanel.

(** C5.  A login on the settings gate leaves the three cells of the logs
    gate as they were, whatever the backend answers, and a successful one
    unlocks the settings gate; the same holds with the gates exchanged;
    and the effect run when the panel opens puts both gates in the locked
    state with empty passwords and empty error messages, from any
    state. *)
Theorem gates_independent_and_reset_on_open :
  (forall (answer : settled bool) (st : Panel),
      let st' := handleSettingsLogin answer st in
      isLogsAuthenticated st' = isLogsAuthenticated st
      /\ logsPassword st' = logsPassword st
      /\ logsPasswordError st' = logsPasswordError st)
  /\ (forall st : Panel,
         isAuthenticated (handleSettingsLogin (Resolved true) st) = true)
  /\ (forall (answer : settled bool) (logData : settled (list Types.LogEntry))
             (st : Panel),
         let st' := handleLogsLogin answer logData st in
         isAuthenticated st' = isAuthenticated st
         /\ settingsPassword st' = settingsPassword st
         /\ settingsPasswordError st' = settingsPasswordError st)
  /\ (forall (logData : settled (list Types.LogEntry)) (st : Panel),
         isLogsAuthenticated (handleLogsLogin (Resolved true) logData st) = true)
  /\ (forall st : Panel,
         let st' := openEffect true st in
         isAuthenticated st' = false
         /\ isLogsAuthenticated st' = false
         /\ settingsPassword st' = "" /\ logsPassword st' = ""
         /\ settingsPasswordError st' = "" /\ logsPasswordError st' = "").
Proof.
  repeat split.
  - destruct answer as [[|]|e]; reflexivity.
  - destruct answer as [[|]|e]; reflexivity.
  - destruct answer as [[|]|e]; reflexivity.
  - destruct answer as [[|]|e]; reflexivity.
  - destruct answer as [[|]|e]; reflexivity.
  - destruct answer as [[|]|e]; reflexivity.
Qed.

(** The open effect undoes whatever a run of gate events did. *)
Lemma reopen_after_any_run (evs : list GateEvent) (st : Panel) :
  let st' := step (fold_left step evs st) OpenPanel in
  isAuthenticated st' = false /\ isLogsAuthenticated st' = false.
Proof.
  simpl. split; reflexivity.
Qed.

End Gates.

(** ** Feature toggles *)

Section Toggles.
Import SettingsPanel.

Lemma get_set_same (key : SettingKey) (v : bool) (s : Settings) :
  get key (set key v s) = v.
Proof. destruct key; reflexivity. Qed.

Lemma get_set_other (key k : SettingKey) (v : bool) (s : Settings) :
  key_eqb key k = false -> get k (set key v s) = get k s.
Proof. destruct key, k; simpl; intros H; try discriminate H; reflexivity. Qed.

Lemma set_set_back (key : SettingKey) (v : bool) (s : Settings) :
  set key (get key s) (set key v s) = s.
Proof. destruct key, s; reflexivity. Qed.

(** C6.  For every key, the click first shows the negation of the value
    shown before it; and when [set_setting] rejects, the value shown for
    the key is again the one from before the click, whatever happened to
    the settings meanwhile, and with nothing in between the whole record
    of settings is the one from before the click. *)
Theorem toggle_flips_then_rolls_back
    (key : SettingKey) (error : string) (st : Panel) :
  let '(newValue, st1) := toggleSetting_begin key st in
  get key (settings st1) = negb (get key (settings st))
  /\ (forall st2 : Panel,
         get key (settings (toggleSetting_end key newValue (Rejected error) st2))
         = get key (settings st))
  /\ settings (toggleSetting key (Rejected error) st) = settings st.
Proof.
  unfold toggleSetting, toggleSetting_begin, toggleSetting_end. simpl.
  repeat split.
  - apply get_set_same.
  - intros st2. rewrite get_set_same. apply negb_involutive.
  - rewrite negb_involutive. apply set_set_back.
Qed.

End Toggles.

(** ** The log of the remote shell *)

Section ShellLog.
Import ITToolsPanel.

Lemma extends_refl (l : list string) : extends l l.
Proof. exists []. symmetry. apply app_nil_r. Qed.

Lemma extends_app (l added : list string) : extends l (l ++ added).
Proof. exists added. reflexivity. Qed.

Lemma extends_trans (a b c : list string) :
  extends a b -> extends b c -> extends a c.
Proof.
  intros [x ->] [y ->]. exists (x ++ y). symmetry. apply app_assoc.
Qed.

(** C7, as stated, fails at a second connection attempt.  After a first
    attempt that the backend refused the log holds two lines; the next
    click on Connect leaves one line, and the two earlier lines are
    gone. *)
Lemma connect_restarts_log :
  let st := run [TypeHost "a"; ConnectClicked; ConnectSettled (Rejected "refused")] in
  sshOutput st = ["Connecting to a..."; "Error: refused"]
  /\ sshOutput (step st ConnectClicked) = ["Connecting to a..."]
  /\ ~ extends (sshOutput st) (sshOutput (step st ConnectClicked)).
Proof.
  cbv zeta. split; [reflexivity|]. split; [reflexivity|].
  intros [added H]. vm_compute in H. discriminate H.
Qed.

Lemma step_extends (st : Shell) (ev : ShellEvent) :
  ev <> ConnectClicked -> extends (sshOutput st) (sshOutput (step st ev)).
Proof.
  intros Hev. destruct ev as [v|v| |answer|answer| |answer]; simpl.
  - apply extends_refl.
  - apply extends_refl.
  - contradiction.
  - destruct answer; simpl; apply extends_app.
  - destruct answer; simpl; apply extends_app.
  - unfold handleSshExecute_begin.
    destruct (negb (JS.truthy (JS.trim (sshCommand st)))); simpl;
      [apply extends_refl | apply extends_app].
  - destruct answer as [result|e]; simpl; [|apply extends_app].
    destruct (present (stdout result)), (present (stderr result)); simpl.
    + rewrite <- app_assoc. apply extends_app.
    + apply extends_app.
    + apply extends_app.
    + apply extends_refl.
Qed.

(** C7, amended.  Every step of the session other than the click on
    Connect only adds lines at the end of the log, and so does every run
    of such steps: the two outcomes of a connection, a disconnection, the
    echo of a command and its output or error.  The click on Connect
    starts the log again: it holds the single line
    [Connecting to <host>...]. *)
Theorem shell_log_grows_except_at_connect :
  (forall (st : Shell) (ev : ShellEvent),
      ev <> ConnectClicked -> extends (sshOutput st) (sshOutput (step st ev)))
  /\ (forall (st : Shell) (evs : list ShellEvent),
         ~ In ConnectClicked evs ->
         extends (sshOutput st) (sshOutput (fold_left step evs st)))
  /\ (forall st : Shell,
         sshOutput (step st ConnectClicked)
         = [String.append "Connecting to " (String.append (sshHost st) "...")])
  /\ (forall (st : Shell) (id error : string),
         sshOutput (step st (ConnectSettled (Resolved id)))
         = sshOutput st ++ ["Connected successfully!"; ""]
         /\ sshOutput (step st (ConnectSettled (Rejected error)))
            = sshOutput st ++ [String.append "Error: " error]).
Proof.
  split; [exact step_extends|]. split; [|split].
  - intros st evs. revert st.
    induction evs as [|ev evs IH]; intros st Hno; simpl.
    + apply extends_refl.
    + apply extends_trans with (sshOutput (step st ev)).
      * apply step_extends. intros ->. apply Hno. left. reflexivity.
      * apply IH. intros Hin. apply Hno. right. exact Hin.
  - reflexivity.
  - intros st id error. split; reflexivity.
Qed.

Lemma shell_log_grows_except_at_connect_witness :
  let st := run [TypeHost "a"; ConnectClicked; ConnectSettled (Resolved "c1")] in
  extends (sshOutput st)
    (sshOutput
       (fold_left step
          [TypeCommand "ls"; ExecuteEntered;
           ExecuteSettled (Resolved {| stdout := Some "notes.txt"; stderr := None |});
           DisconnectSettled (Resolved tt)] st)).
Proof.
  destruct shell_log_grows_except_at_connect as [_ [H _]].
  apply H. simpl. intros [E|[E|[E|[E|E]]]]; try discriminate E; exact E.
Defined.

End ShellLog.

(** ** The download poll *)

Section Downloads.
Import DownloadManager.

(** C8.  A tick whose call resolves sets the local list to one row per
    item of the answer, in order, each carrying its item, and sets every
    counter to a count over the answer alone: the result is the same
    whatever the list and the counters were before; a tick whose call
    rejects leaves the list and the counters as they were.  With 2 pending items
    followed by a tick showing 1 pending and 1 completed, [pending] goes
    from 2 to 1 and [total_scanned] from 0 to 1. *)
Theorem poll_replaces_and_recounts :
  (forall (data : list DownloadItem) (st st' : Manager),
      loadDownloads (Resolved data) st = loadDownloads (Resolved data) st')
  /\ (forall (data : list DownloadItem) (st : Manager),
         let m := loadDownloads (Resolved data) st in
         map item (downloads m) = data
         /\ total_downloads (stats m) = Z.of_nat (List.length data)
         /\ pending (stats m)
            = Z.of_nat (List.length
                          (filter (fun d => match state d with
                                            | Some s => String.eqb s "Pending"
                                            | None => false
                                            end) data))
         /\ in_progress (stats m) = count (state_is "Downloading") data
         /\ total_scanned (stats m)
            = count (fun d => state_is "Completed" d || state_is "Safe" d) data
         /\ threats_blocked (stats m)
            = count (fun d => state_is "Failed" d && error_mentions_threat d) data)
  /\ (forall (e : string) (st : Manager), loadDownloads (Rejected e) st = st)
  /\ (let job (i s : string) :=
        {| id := i; url := "https://example.com/f"; filename := "f";
           save_path := None; size_total := None; size_downloaded := None;
           state := Some s; scan_result := None; file_hash := None;
           error := None; started_at := 0; completed_at := None |} in
      let m1 := loadDownloads (Resolved [job "a" "Pending"; job "b" "Pending"])
                  initial in
      let m2 := loadDownloads (Resolved [job "a" "Completed"; job "b" "Pending"])
                  m1 in
      pending (stats m1) = 2 /\ total_scanned (stats m1) = 0
      /\ pending (stats m2) = 1 /\ total_scanned (stats m2) = 1
      /\ total_downloads (stats m2) = 2).
Proof.
  split; [reflexivity|]. split; [|repeat split].
  intros data st. simpl. repeat split.
  rewrite map_map. simpl. apply map_id.
Qed.

End Downloads.

(** ** The port list of the scan *)

Section PortScan.
Import ITToolsPanel.

Lemma ports_as_flat_map (portRange : string) :
  ports portRange
  = flat_map (fun e => match JS.parseInt (JS.trim e) with
                       | Some n => [Some n]
                       | None => []
                       end) (JS.split "," portRange).
Proof.
  unfold ports. induction (JS.split "," portRange) as [|e es IH]; simpl.
  - reflexivity.
  - destruct (JS.parseInt (JS.trim e)); simpl; rewrite IH; reflexivity.
Qed.

(** C9.  The port list holds, in the order of the input, the value of
    every comma-separated entry that [parseInt] reads as a number once
    the entry is trimmed, and nothing for the other entries: no element is
    [NaN], and a number is in the list exactly when an entry parses to it.
    ["22, abc, 80"] gives the ports 22 and 80. *)
Theorem port_list_keeps_numeric_entries :
  ports "22, abc, 80" = [Some 22; Some 80]
  /\ (forall portRange : string,
         Forall (fun p => JS.isNaN p = false) (ports portRange))
  /\ (forall (portRange : string) (n : Z),
         In (Some n) (ports portRange)
         <-> exists entry, In entry (JS.split "," portRange)
                           /\ JS.parseInt (JS.trim entry) = Some n)
  /\ (forall portRange : string,
         ports portRange
         = flat_map (fun entry => match JS.parseInt (JS.trim entry) with
                                  | Some n => [Some n]
                                  | None => []
                                  end) (JS.split "," portRange)).
Proof.
  split; [reflexivity|]. split; [|split].
  - intros portRange. apply Forall_forall. intros p Hp.
    unfold ports in Hp. apply filter_In in Hp. destruct Hp as [_ Hp].
    destruct p; [reflexivity | discriminate Hp].
  - intros portRange n. unfold ports. rewrite filter_In, in_map_iff. split.
    + intros [[e [He Hin]] _]. exists e. split; assumption.
    + intros [e [Hin He]]. split; [|reflexivity]. exists e. split; assumption.
  - exact ports_as_flat_map.
Qed.

Lemma port_list_keeps_numeric_entries_witness :
  In (Some 80) (ports "22, abc, 80") /\ ~ In None (ports "22, abc, 80").
Proof.
  destruct port_list_keeps_numeric_entries as [_ [Hnum [Hiff _]]].
  split.
  - apply (Hiff "22, abc, 80" 80). exists " 80". split.
    + simpl. right. right. left. reflexivity.
    + reflexivity.
  - intros Hin. specialize (Hnum "22, abc, 80").
    rewrite Forall_forall in Hnum. apply Hnum in Hin. discriminate Hin.
Defined.

End PortScan.

(** ** The virtual keyboard *)

Section Keyboard.
Import VirtualKeyboard.

Lemma firstn_removelast {A : Type} (s : list A) :
  firstn (List.length s - 1) s = removelast s.
Proof.
  induction s as [|x s IH]; [reflexivity|].
  destruct s as [|y s]; [reflexivity|].
  change (removelast (x :: y :: s)) with (x :: removelast (y :: s)).
  rewrite <- IH. simpl. rewrite Nat.sub_0_r. reflexivity.
Qed.

(** [slice(0, -1)] removes the last code unit, and nothing from the empty
    text. *)
Lemma slice_drops_last {A : Type} (s : list A) :
  JS.slice 0 (-1) s = removelast s.
Proof.
  unfold JS.slice.
  change (0 <? 0) with false. change (-1 <? 0) with true. cbv iota.
  replace (Z.to_nat (Z.min 0 (Z.of_nat (List.length s)))) with 0%nat by lia.
  replace (Z.to_nat _) with (List.length s - 1)%nat by lia.
  apply firstn_removelast.
Qed.

(** C10.  With an empty buffer, a Backspace outcome leaves the whole
    state as it is, the buffer still empty, and the handler ends normally
    with its one call [onInput('Backspace')]. *)
Theorem backspace_on_empty_buffer
    (key : text) (st : Keyboard) :
  inputValue st = [] ->
  handleKeyPress key (Resolved Backspace) st = (st, [text_of "Backspace"])
  /\ inputValue (fst (handleKeyPress key (Resolved Backspace) st)) = [].
Proof.
  intros H. destruct st as [sh ca shf buf]. simpl in *. subst buf.
  split; reflexivity.
Qed.

Lemma backspace_on_empty_buffer_witness :
  handleKeyPress (text_of "Backspace") (Resolved Backspace) initial
  = (initial, [text_of "Backspace"]).
Proof.
  apply (backspace_on_empty_buffer (text_of "Backspace") initial).
  reflexivity.
Defined.

(** On any buffer, a Backspace outcome removes the last code unit. *)
Lemma backspace_removes_last (key : text) (st : Keyboard) :
  inputValue (fst (handleKeyPress key (Resolved Backspace) st))
  = removelast (inputValue st).
Proof.
  simpl. apply slice_drops_last.
Qed.

End Keyboard.

(** * Further properties of the code *)

(** ** Texts *)

Lemma prefix_empty (x : string) : String.prefix "" x = true.
Proof. destruct x; reflexivity. Qed.

Lemma prefix_app (p x : string) : String.prefix p (String.append p x) = true.
Proof.
  induction p as [|c p IH]; simpl; [destruct x; reflexivity|].
  destruct (ascii_dec c c) as [_|N]; [exact IH | contradiction].
Qed.

Lemma prefix_split (p s : string) :
  String.prefix p s = true -> exists r, s = String.append p r.
Proof.
  revert s. induction p as [|c p IH]; intros s H.
  - exists s. reflexivity.
  - destruct s as [|d s]; simpl in H; [discriminate H|].
    destruct (ascii_dec c d) as [<-|N]; [|discriminate H].
    destruct (IH s H) as [r ->]. exists r. reflexivity.
Qed.

Lemma includes_char_app (c : ascii) (a b : string) :
  JS.includes (String c "") (String.append a b)
  = JS.includes (String c "") a || JS.includes (String c "") b.
Proof.
  induction a as [|d a IH].
  - simpl. destruct b; reflexivity.
  - simpl String.append. simpl JS.includes. rewrite IH.
    destruct (ascii_dec c d); rewrite ?prefix_empty; reflexivity.
Qed.

Lemma encode_cons (c : ascii) (s : string) :
  JS.encodeURIComponent (String c s)
  = String.append (JS.encodeURIComponent (String c "")) (JS.encodeURIComponent s).
Proof.
  simpl. destruct (JS.unreserved c); reflexivity.
Qed.

Lemma encode_char_no_space (c : ascii) :
  JS.includes " " (JS.encodeURIComponent (String c "")) = false.
Proof.
  destruct c as [[] [] [] [] [] [] [] []]; reflexivity.
Qed.

Lemma encode_no_space (s : string) :
  JS.includes " " (JS.encodeURIComponent s) = false.
Proof.
  induction s as [|c s IH]; [reflexivity|].
  rewrite encode_cons, includes_char_app, encode_char_no_space, IH. reflexivity.
Qed.

Lemma http_is_not_https (url : string) :
  JS.startsWith "http://" url = true -> JS.startsWith "https://" url = false.
Proof.
  intros H. apply prefix_split in H. destruct H as [r ->]. reflexivity.
Qed.

(** ** Navigation *)

Section NavigationMore.
Import Types App.


Lemma finalUrl_has_dot (url : string) :
  JS.includes "." (finalUrl url) = true.
Proof.
  unfold finalUrl.
  destruct (negb (JS.includes "." url) || JS.includes " " url) eqn:S.
  - rewrite includes_char_app. reflexivity.
  - apply orb_false_iff in S. destruct S as [D _].
    apply negb_false_iff in D.
    destruct (negb (JS.startsWith "http://" url)
              && negb (JS.startsWith "https://" url)); [|exact D].
    rewrite includes_char_app, D. apply orb_true_r.
Qed.

Lemma finalUrl_has_no_space (url : string) :
  JS.includes " " (finalUrl url) = false.
Proof.
  unfold finalUrl.
  destruct (negb (JS.includes "." url) || JS.includes " " url) eqn:S.
  - rewrite includes_char_app, encode_no_space. reflexivity.
  - apply orb_false_iff in S. destruct S as [_ Sp].
    destruct (negb (JS.startsWith "http://" url)
              && negb (JS.startsWith "https://" url)); [|exact Sp].
    rewrite includes_char_app, Sp. reflexivity.
Qed.

Lemma finalUrl_has_scheme (url : string) :
  JS.startsWith "http://" (finalUrl url) = true
  \/ JS.startsWith "https://" (finalUrl url) = true.
Proof.
  unfold finalUrl.
  destruct (negb (JS.includes "." url) || JS.includes " " url);
    [right; reflexivity|].
  destruct (negb (JS.startsWith "http://" url)
            && negb (JS.startsWith "https://" url)) eqn:P;
    [right; apply prefix_app|].
  apply andb_false_iff in P.
  destruct P as [P|P]; apply negb_false_iff in P; [left | right]; exact P.
Qed.

(** Whatever the input, the URL [navigateTo] works with holds a dot,
    holds no space, and starts with [http://] or [https://]. *)
Theorem finalUrl_shape (url : string) :
  JS.includes "." (finalUrl url) = true
  /\ JS.includes " " (finalUrl url) = false
  /\ (JS.startsWith "http://" (finalUrl url) = true
      \/ JS.startsWith "https://" (finalUrl url) = true).
Proof.
  split; [|split].
  - apply finalUrl_has_dot.
  - apply finalUrl_has_no_space.
  - apply finalUrl_has_scheme.
Qed.


(** The [isSecure] flag [navigateTo] computes is off exactly for the
    inputs that hold a dot, hold no space and start with [http://]:
    searches and inputs completed with [https://] are always marked
    secure. *)
Theorem finalUrl_secure_flag (url : string) :
  JS.startsWith "https://" (finalUrl url)
  = negb (JS.includes "." url && negb (JS.includes " " url)
          && JS.startsWith "http://" url).
Proof.
  unfold finalUrl.
  destruct (JS.includes "." url) eqn:D; simpl; [|reflexivity].
  destruct (JS.includes " " url) eqn:S; simpl; [reflexivity|].
  destruct (JS.startsWith "http://" url) eqn:H; simpl.
  - apply http_is_not_https, H.
  - destruct (JS.startsWith "https://" url) eqn:H'; simpl;
      [exact H' | apply prefix_empty].
Qed.

End NavigationMore.

(** ** Tab registry, continued *)

Section TabRegistryMore.
Import Types App.

Lemma map_unchanged {A : Type} (f : A -> A) (l : list A) :
  (forall x, In x l -> f x = x) -> map f l = l.
Proof.
  induction l as [|x l IH]; intros H; simpl; [reflexivity|].
  rewrite H by (left; reflexivity). rewrite IH; [reflexivity|].
  intros y Hy. apply H. right. exact Hy.
Qed.

Lemma updateTab_absent (tabId : string) (updates : PartialTab) (st : TabState) :
  ~ In tabId (map id (tabs st)) -> updateTab tabId updates st = st.
Proof.
  intros H. destruct st as [ts a]. unfold updateTab. simpl in *. f_equal.
  apply map_unchanged. intros t Ht.
  destruct (String.eqb (id t) tabId) eqn:E; [|reflexivity].
  exfalso. apply H. apply String.eqb_eq in E. rewrite <- E.
  apply in_map. exact Ht.
Qed.

(** [updateTab] never changes the active id or the number of tabs, leaves
    every tab with another id as it is, and does nothing at all when no
    tab has the given id. *)
Theorem updateTab_touches_only_its_tab
    (tabId : string) (updates : PartialTab) (st : TabState) :
  activeTabId (updateTab tabId updates st) = activeTabId st
  /\ List.length (tabs (updateTab tabId updates st)) = List.length (tabs st)
  /\ (forall (i : nat) (t : Tab),
         nth_error (tabs st) i = Some t -> id t <> tabId ->
         nth_error (tabs (updateTab tabId updates st)) i = Some t)
  /\ (~ In tabId (map id (tabs st)) -> updateTab tabId updates st = st).
Proof.
  split; [reflexivity|]. split; [apply length_map|]. split.
  - intros i t Hi Hid. simpl. rewrite nth_error_map, Hi. simpl.
    apply String.eqb_neq in Hid. rewrite Hid. reflexivity.
  - apply updateTab_absent.
Qed.

Lemma updateTab_touches_only_its_tab_witness :
  let st := run [Open 5; Open 6] in
  nth_error (tabs (updateTab "6" {| p_id := None; p_title := Some "Docs";
                                    p_url := None; p_isLoading := None;
                                    p_isSecure := None; p_isWhitelisted := None;
                                    p_favicon := None |} st)) 1
  = Some (newTabLiteral "5")
  /\ updateTab "7" {| p_id := None; p_title := Some "Docs";
                      p_url := None; p_isLoading := None;
                      p_isSecure := None; p_isWhitelisted := None;
                      p_favicon := None |} st = st.
Proof.
  cbv zeta. split.
  - apply (updateTab_touches_only_its_tab "6"); [reflexivity | discriminate].
  - apply (updateTab_touches_only_its_tab "7").
    simpl. intros [H|[H|[H|H]]]; try discriminate H; exact H.
Defined.

(** A navigation that fails after the user moved to another tab: the tab
    that was active when it began ends with the resolved URL and its
    security flag, not loading, and with its title as before; every
    other tab is untouched. *)
Theorem navigation_failure_settles_starting_tab
    (url : string) (i : nat) (st : TabState) :
  let captured := activeTabId st in
  tabs (navigateTo_catch captured (selectTab i (navigateTo_begin url st)))
  = map (fun tab =>
           if String.eqb (id tab) captured
           then {| id := id tab; title := title tab; url := finalUrl url;
                   isLoading := false;
                   isSecure := JS.startsWith "https://" (finalUrl url);
                   isWhitelisted := isWhitelisted tab;
                   favicon := favicon tab |}
           else tab) (tabs st).
Proof.
  cbv zeta. unfold navigateTo_catch, navigateTo_begin.
  assert (S : forall s, tabs (selectTab i s) = tabs s).
  { intros s. unfold selectTab. destruct (nth_error (tabs s) i); reflexivity. }
  unfold updateTab at 1. simpl tabs. rewrite S. simpl tabs.
  rewrite map_map. apply map_ext. intros tab.
  destruct (String.eqb (id tab) (activeTabId st)) eqn:E.
  - simpl. rewrite E. destruct tab; reflexivity.
  - rewrite E. reflexivity.
Qed.

Lemma find_last_only {A : Type} (p : A -> bool) (l : list A) (x : A) :
  (forall y, In y l -> p y = false) -> p x = true -> find p (l ++ [x]) = Some x.
Proof.
  induction l as [|y l IH]; intros H Hx; simpl.
  - rewrite Hx. reflexivity.
  - rewrite H by (left; reflexivity). apply IH; [|exact Hx].
    intros z Hz. apply H. right. exact Hz.
Qed.

(** [addTab] puts the blank tab after the tabs that were there, which it
    keeps, and makes its id the active id; the new tab is then the active
    tab provided no earlier tab carries the same id (two tabs opened at
    the same clock value share their id). *)
Theorem addTab_appends_and_activates (now : N) (st : TabState) :
  tabs (addTab now st) = tabs st ++ [newTabLiteral (JS.toString now)]
  /\ activeTabId (addTab now st) = JS.toString now
  /\ (~ In (JS.toString now) (map id (tabs st)) ->
      activeTab (addTab now st) = Some (newTabLiteral (JS.toString now))).
Proof.
  split; [reflexivity|]. split; [reflexivity|].
  intros H. unfold activeTab. simpl.
  rewrite find_last_only; [reflexivity| |apply String.eqb_refl].
  intros t Ht. apply String.eqb_neq. intros E. apply H.
  rewrite <- E. apply in_map. exact Ht.
Qed.

Lemma addTab_appends_and_activates_witness :
  activeTab (addTab 6 (run [Open 5])) = Some (newTabLiteral "6")
  /\ activeTab (addTab 5 (run [Open 5])) = Some (newTabLiteral "5").
Proof.
  split.
  - apply (addTab_appends_and_activates 6 (run [Open 5])).
    simpl. intros [H|[H|H]]; try discriminate H; exact H.
  - reflexivity.
Defined.

Lemma closeTab_tabs_remaining (tabId : string) (now : N) (st : TabState) :
  filter (fun t => negb (String.eqb (id t) tabId)) (tabs st) <> [] ->
  tabs (closeTab tabId now st)
  = filter (fun t => negb (String.eqb (id t) tabId)) (tabs st).
Proof.
  intros H. simpl. unfold closeTab_setTabs.
  destruct (filter _ (tabs st)); [contradiction | reflexivity].
Qed.

(** Closing a tab while others remain: the list becomes the other tabs,
    in their order and unchanged; no tab with the closed id is left; and
    if the closed tab was not the active one the active id stays. *)
Theorem closeTab_keeps_the_other_tabs
    (tabId : string) (now : N) (st : TabState) :
  let remaining := filter (fun t => negb (String.eqb (id t) tabId)) (tabs st) in
  (remaining <> [] ->
   tabs (closeTab tabId now st) = remaining
   /\ ~ In tabId (map id (tabs (closeTab tabId now st)))
   /\ (forall t, In t (tabs st) -> id t <> tabId ->
                 In t (tabs (closeTab tabId now st))))
  /\ (activeTabId st <> tabId ->
      activeTabId (closeTab tabId now st) = activeTabId st).
Proof.
  cbv zeta. split.
  - intros H. rewrite (closeTab_tabs_remaining tabId now st H).
    split; [reflexivity|]. split.
    + intros Hin. apply in_map_iff in Hin. destruct Hin as [t [E Ht]].
      apply filter_In in Ht. destruct Ht as [_ Ht].
      rewrite E, String.eqb_refl in Ht. discriminate Ht.
    + intros t Ht Hid. apply filter_In. split; [exact Ht|].
      apply String.eqb_neq in Hid. rewrite Hid. reflexivity.
  - intros H. simpl. apply String.eqb_neq in H. rewrite H. reflexivity.
Qed.

Lemma closeTab_keeps_the_other_tabs_witness :
  let st := run [Open 5; Open 6; Select 1] in
  tabs (closeTab "6" 9 st) = [newTabLiteral "1"; newTabLiteral "5"]
  /\ activeTabId (closeTab "6" 9 st) = "5".
Proof.
  cbv zeta.
  destruct (closeTab_keeps_the_other_tabs "6" 9 (run [Open 5; Open 6; Select 1]))
    as [H1 H2].
  split.
  - destruct H1 as [E _]; [discriminate|]. rewrite E. reflexivity.
  - rewrite H2; [reflexivity | discriminate].
Defined.

Lemma first_id_in (ts : list Tab) : ts <> [] -> In (first_id ts) (map id ts).
Proof.
  destruct ts as [|t ts]; [contradiction|]. intros _. left. reflexivity.
Qed.

Lemma setActiveTabId_names_remaining (ts : list Tab) (tabId prev : string) :
  let remaining := filter (fun t => negb (String.eqb (id t) tabId)) ts in
  remaining <> [] ->
  In (closeTab_setActiveTabId ts tabId prev) (map id remaining).
Proof.
  cbv zeta. intros H. unfold closeTab_setActiveTabId.
  destruct (filter _ ts) as [|r rs] eqn:F; [contradiction|].
  cbv zeta. simpl Nat.eqb. cbv iota.
  destruct (JS.index (r :: rs) _) as [t|] eqn:I.
  - destruct (JS.truthy (id t)); [|apply first_id_in; discriminate].
    unfold JS.index in I. destruct (_ <? 0); [discriminate I|].
    apply nth_error_In in I. apply in_map. exact I.
  - apply first_id_in. discriminate.
Qed.

Lemma step_keeps_active_named (st : TabState) (op : TabOp) :
  activeTabId st = "" \/ In (activeTabId st) (map id (tabs st)) ->
  activeTabId (step st op) = ""
  \/ In (activeTabId (step st op)) (map id (tabs (step st op))).
Proof.
  intros H. destruct op as [now|tabId now|i].
  - right. simpl. rewrite map_app. apply in_or_app. right. left. reflexivity.
  - simpl step.
    destruct (filter (fun t => negb (String.eqb (id t) tabId)) (tabs st))
      as [|r rs] eqn:F.
    + (* nothing remains *)
      simpl. unfold closeTab_setTabs, closeTab_setActiveTabId. rewrite F. simpl.
      destruct (String.eqb (activeTabId st) tabId) eqn:E; [left; reflexivity|].
      destruct H as [H|H]; [left; exact H|].
      exfalso. apply in_map_iff in H. destruct H as [t [Et Ht]].
      assert (K : In t (filter (fun t => negb (String.eqb (id t) tabId)) (tabs st))).
      { apply filter_In. split; [exact Ht|]. rewrite Et, E. reflexivity. }
      rewrite F in K. exact K.
    + assert (R : filter (fun t => negb (String.eqb (id t) tabId)) (tabs st) <> [])
        by (rewrite F; discriminate).
      rewrite (closeTab_tabs_remaining tabId now st R).
      simpl activeTabId.
      destruct (String.eqb (activeTabId st) tabId) eqn:E.
      * right. apply setActiveTabId_names_remaining. exact R.
      * destruct H as [H|H]; [left; exact H|]. right.
        apply in_map_iff in H. destruct H as [t [Et Ht]].
        apply in_map_iff. exists t. split; [exact Et|].
        apply filter_In. split; [exact Ht|]. rewrite Et, E. reflexivity.
  - simpl. unfold selectTab.
    destruct (nth_error (tabs st) i) as [t|] eqn:N; [|exact H].
    right. simpl. apply in_map. eapply nth_error_In, N.
Qed.

(** In every registry reached from the initial one, the active id is
    the id of a tab of the list or the empty text, and the derived
    active tab always exists and is a tab of the list. *)
Theorem active_tab_always_exists (ops : list TabOp) :
  let st := run ops in
  (activeTabId st = "" \/ In (activeTabId st) (map id (tabs st)))
  /\ exists t, activeTab st = Some t /\ In t (tabs st).
Proof.
  cbv zeta. split.
  - unfold run.
    assert (G : forall st,
               activeTabId st = "" \/ In (activeTabId st) (map id (tabs st)) ->
               activeTabId (fold_left step ops st) = ""
               \/ In (activeTabId (fold_left step ops st))
                     (map id (tabs (fold_left step ops st)))).
    { induction ops as [|op ops IH]; intros st H; simpl; [exact H|].
      apply IH, step_keeps_active_named, H. }
    apply G. right. left. reflexivity.
  - assert (H : tabs (run ops) <> []).
    { apply fold_keeps_tabs. simpl. discriminate. }
    unfold activeTab.
    destruct (find _ (tabs (run ops))) as [t|] eqn:F.
    + exists t. split; [reflexivity|]. apply find_some in F. apply F.
    + destruct (tabs (run ops)) as [|t ts]; [contradiction|].
      exists t. split; [reflexivity | left; reflexivity].
Qed.

Lemma filter_twice {A : Type} (p : A -> bool) (l : list A) :
  filter p (filter p l) = filter p l.
Proof.
  induction l as [|x l IH]; simpl; [reflexivity|].
  destruct (p x) eqn:E; simpl; [rewrite E, IH|]; auto.
Qed.

(** Closing the same id a second time changes nothing, as long as the
    first close left other tabs. *)
Theorem closeTab_twice (tabId : string) (now now' : N) (st : TabState) :
  filter (fun t => negb (String.eqb (id t) tabId)) (tabs st) <> [] ->
  closeTab tabId now' (closeTab tabId now st) = closeTab tabId now st.
Proof.
  intros R.
  assert (T := closeTab_tabs_remaining tabId now st R).
  assert (A : activeTabId (closeTab tabId now st) <> tabId).
  { simpl. destruct (String.eqb (activeTabId st) tabId) eqn:E.
    - intros K.
      pose proof (setActiveTabId_names_remaining (tabs st) tabId
                    (activeTabId st) R) as H.
      rewrite K in H. apply in_map_iff in H. destruct H as [t [Et Ht]].
      apply filter_In in Ht. destruct Ht as [_ Ht].
      rewrite Et, String.eqb_refl in Ht. discriminate Ht.
    - apply String.eqb_neq. exact E. }
  destruct (closeTab tabId now st) as [ts a] eqn:C. simpl in T, A.
  unfold closeTab. simpl.
  apply String.eqb_neq in A. rewrite A. f_equal.
  unfold closeTab_setTabs. rewrite T, filter_twice.
  destruct (filter _ (tabs st)); [contradiction | reflexivity].
Qed.

Lemma closeTab_twice_witness :
  closeTab "5" 8 (closeTab "5" 7 (run [Open 5; Open 6]))
  = closeTab "5" 7 (run [Open 5; Open 6]).
Proof.
  apply closeTab_twice. discriminate.
Defined.

(** Once the active id is the empty text (after the last tab was closed),
    closing tabs by their id leaves it empty, and a navigation updates no
    tab; it takes a new tab or a click on a tab to get an active id
    again. *)
Theorem empty_active_id_persists
    (ops : list TabOp) (tabId url : string) (now : N) :
  activeTabId (run ops) = "" -> tabId <> "" ->
  activeTabId (closeTab tabId now (run ops)) = ""
  /\ navigateTo_begin url (run ops) = run ops.
Proof.
  intros H Hid. split.
  - simpl. rewrite H.
    destruct (String.eqb "" tabId) eqn:E; [|reflexivity].
    apply String.eqb_eq in E. symmetry in E. contradiction.
  - unfold navigateTo_begin. apply updateTab_absent. rewrite H.
    intros Hin. apply in_map_iff in Hin. destruct Hin as [t [Et Ht]].
    pose proof (run_ids_not_empty ops) as I. unfold ids_not_empty in I.
    rewrite Forall_forall in I. apply (I t Ht). exact Et.
Qed.

Lemma empty_active_id_persists_witness :
  let st := run [Close "1" 7] in
  activeTabId (closeTab "7" 8 st) = ""
  /\ navigateTo_begin "example.com" st = st
  /\ activeTabId (addTab 9 st) = "9".
Proof.
  cbv zeta.
  destruct (empty_active_id_persists [Close "1" 7] "7" "example.com" 8)
    as [H1 H2]; [reflexivity | discriminate |].
  split; [exact H1|]. split; [exact H2 | reflexivity].
Defined.

End TabRegistryMore.

(** ** Identity, continued *)

Section IdentityMore.
Import Types App.

(** After a successful [initPrivacy] the identity id is the session id
    of the fingerprint on display.  After a successful
    [regenerateIdentity] it is so exactly when the fingerprint fetched
    afterwards reports the session id that [regenerate_identity]
    returned: the id is taken from the first answer, the display from
    the second. *)
Theorem identity_id_and_displayed_fingerprint
    (identity : FakeIdentity) (f : FakeFingerprint) (g : FakeGeolocation)
    (u : FakeUserAgent) (st : IdentityState) :
  let shown (s : IdentityState) :=
    option_map sessionId (d_fingerprint (privacyDetails s)) in
  let st1 := initPrivacy (Resolved f) (Resolved g) (Resolved u) st in
  let st2 := regenerateIdentity (Resolved identity)
               (Resolved f) (Resolved g) (Resolved u) st in
  shown st1 = Some (identityId (privacyStatus st1))
  /\ (shown st2 = Some (identityId (privacyStatus st2))
      <-> sessionId f = sessionId (fingerprint identity))
  /\ isProtected (privacyStatus st2) = isProtected (privacyStatus st)
  /\ trackersBlocked (privacyStatus st2) = trackersBlocked (privacyStatus st)
  /\ fingerprintsBlocked (privacyStatus st2)
     = fingerprintsBlocked (privacyStatus st).
Proof.
  simpl. split; [reflexivity|]. split; [|repeat split].
  split; intros H; [injection H as H; exact H | rewrite H; reflexivity].
Qed.

Lemma identity_id_and_displayed_fingerprint_witness :
  let st := regenerateIdentity (Resolved (sample_identity "new"))
              (Resolved (sample_fingerprint "old"))
              (Resolved (sample_geolocation "Paris"))
              (Resolved (sample_userAgent "Chrome")) identity_initial in
  option_map sessionId (d_fingerprint (privacyDetails st))
  <> Some (identityId (privacyStatus st)).
Proof.
  cbv zeta. intros H.
  destruct (identity_id_and_displayed_fingerprint (sample_identity "new")
              (sample_fingerprint "old") (sample_geolocation "Paris")
              (sample_userAgent "Chrome") identity_initial) as [_ [K _]].
  apply K in H. discriminate H.
Defined.

End IdentityMore.

(** ** The two password gates, continued *)

Section GatesMore.
Import SettingsPanel.

Lemma step_unlocks_settings (st : Panel) (ev : GateEvent) :
  isAuthenticated st = false -> isAuthenticated (step st ev) = true ->
  ev = SettingsLogin (Resolved true).
Proof.
  intros H K. destruct ev as [v|v|[[|]|e]|[[|]|e] logData| |];
    simpl in K; try congruence.
Qed.

Lemma step_unlocks_logs (st : Panel) (ev : GateEvent) :
  isLogsAuthenticated st = false -> isLogsAuthenticated (step st ev) = true ->
  exists logData, ev = LogsLogin (Resolved true) logData.
Proof.
  intros H K. destruct ev as [v|v|[[|]|e]|[[|]|e] logData| |];
    simpl in K; try congruence.
  exists logData. reflexivity.
Qed.

(** Neither gate opens without the backend saying yes: if a gate is
    locked before a run of events and open after it, the run holds a
    login on that gate which the backend resolved with [true]. *)
Theorem gate_opens_only_on_backend_yes (evs : list GateEvent) (st : Panel) :
  (isAuthenticated st = false ->
   isAuthenticated (fold_left step evs st) = true ->
   In (SettingsLogin (Resolved true)) evs)
  /\ (isLogsAuthenticated st = false ->
      isLogsAuthenticated (fold_left step evs st) = true ->
      exists logData, In (LogsLogin (Resolved true) logData) evs).
Proof.
  split.
  - revert st. induction evs as [|ev evs IH]; intros st H K; simpl in K.
    + congruence.
    + destruct (isAuthenticated (step st ev)) eqn:E.
      * left. eapply step_unlocks_settings; eassumption.
      * right. eapply IH; eassumption.
  - revert st. induction evs as [|ev evs IH]; intros st H K; simpl in K.
    + congruence.
    + destruct (isLogsAuthenticated (step st ev)) eqn:E.
      * destruct (step_unlocks_logs st ev H E) as [l ->].
        exists l. left. reflexivity.
      * destruct (IH _ E K) as [l Hl]. exists l. right. exact Hl.
Qed.

Lemma gate_opens_only_on_backend_yes_witness :
  In (SettingsLogin (Resolved true))
     [OpenPanel; TypeSettingsPassword "pw"; SettingsLogin (Resolved false);
      SettingsLogin (Resolved true)].
Proof.
  apply (gate_opens_only_on_backend_yes
           [OpenPanel; TypeSettingsPassword "pw"; SettingsLogin (Resolved false);
            SettingsLogin (Resolved true)] initial); reflexivity.
Defined.

(** A login that does not succeed (wrong password, or the call failed)
    leaves both gates as they were and shows a non-empty error on its own
    gate; the next successful login on that gate empties the error. *)
Theorem failed_login_keeps_locks_and_reports
    (answer : settled bool) (logData : settled (list Types.LogEntry))
    (st : Panel) :
  answer <> Resolved true ->
  let s := handleSettingsLogin answer st in
  let l := handleLogsLogin answer logData st in
  isAuthenticated s = isAuthenticated st
  /\ isLogsAuthenticated l = isLogsAuthenticated st
  /\ settingsPasswordError s <> "" /\ logsPasswordError l <> ""
  /\ settingsPasswordError (handleSettingsLogin (Resolved true) s) = ""
  /\ logsPasswordError (handleLogsLogin (Resolved true) logData l) = ""
  /\ logs l = logs st /\ settings s = settings st.
Proof.
  intros H. destruct answer as [[|]|e]; [contradiction| |];
    simpl; repeat split; discriminate.
Qed.

Lemma failed_login_keeps_locks_and_reports_witness :
  settingsPasswordError (handleSettingsLogin (Rejected "offline") initial) <> ""
  /\ isAuthenticated (handleSettingsLogin (Rejected "offline") initial) = false.
Proof.
  destruct (failed_login_keeps_locks_and_reports (Rejected "offline")
              (Rejected "offline") initial) as [A [_ [B _]]]; [discriminate|].
  split; [exact B | exact A].
Defined.

End GatesMore.

(** ** Feature toggles, continued *)

Section TogglesMore.
Import SettingsPanel.

Lemma key_eqb_eq (a b : SettingKey) : key_eqb a b = true <-> a = b.
Proof.
  split; [|intros ->; destruct b; reflexivity].
  destruct a, b; simpl; intros H; try discriminate H; reflexivity.
Qed.

(** A click on a toggle, whatever the backend answers, changes no other
    toggle, no cell of the two gates and no log. *)
Theorem toggle_changes_only_its_key
    (key k : SettingKey) (answer : settled unit) (st : Panel) :
  key <> k ->
  let st' := toggleSetting key answer st in
  get k (settings st') = get k (settings st)
  /\ isAuthenticated st' = isAuthenticated st
  /\ isLogsAuthenticated st' = isLogsAuthenticated st
  /\ settingsPassword st' = settingsPassword st
  /\ logsPassword st' = logsPassword st
  /\ logs st' = logs st.
Proof.
  intros H. assert (E : key_eqb key k = false).
  { destruct (key_eqb key k) eqn:E; [|reflexivity].
    apply key_eqb_eq in E. contradiction. }
  cbv zeta. unfold toggleSetting, toggleSetting_begin, toggleSetting_end.
  destruct answer; simpl; repeat split; rewrite ?get_set_other by exact E;
    reflexivity.
Qed.

Lemma toggle_changes_only_its_key_witness :
  get KhttpsOnly (settings (toggleSetting KtorEnabled (Resolved tt) initial))
  = true.
Proof.
  destruct (toggle_changes_only_its_key KtorEnabled KhttpsOnly (Resolved tt)
              initial) as [H _]; [discriminate|].
  rewrite H. reflexivity.
Defined.

Lemma set_set_same (key : SettingKey) (v w : bool) (s : Settings) :
  set key w (set key v s) = set key w s.
Proof. destruct key; reflexivity. Qed.

Lemma set_get_same (key : SettingKey) (s : Settings) :
  set key (get key s) s = s.
Proof. destruct key, s; reflexivity. Qed.

Lemma set_commute (key k : SettingKey) (v w : bool) (s : Settings) :
  key <> k -> set key v (set k w s) = set k w (set key v s).
Proof.
  intros H. destruct key, k; try reflexivity; contradiction.
Qed.

(** Two clicks on the same toggle that the backend both accepts bring
    the panel back to the state before them. *)
Theorem toggle_twice_restores (key : SettingKey) (st : Panel) :
  toggleSetting key (Resolved tt) (toggleSetting key (Resolved tt) st) = st.
Proof.
  unfold toggleSetting, toggleSetting_begin, toggleSetting_end, setSettings.
  destruct st as [a sp se la lp le s l]. simpl. f_equal.
  rewrite get_set_same, negb_involutive, set_set_same. apply set_get_same.
Qed.

(** Clicks on two different toggles give the same panel in either
    order, whatever the backend answers to each. *)
Theorem toggles_commute
    (key k : SettingKey) (a b : settled unit) (st : Panel) :
  key <> k ->
  toggleSetting key a (toggleSetting k b st)
  = toggleSetting k b (toggleSetting key a st).
Proof.
  intros H.
  unfold toggleSetting, toggleSetting_begin, toggleSetting_end, setSettings.
  destruct st as [au sp se la lp le s l].
  destruct a, b; simpl; f_equal;
    destruct key, k; try (exfalso; apply H; reflexivity);
    destruct s; reflexivity.
Qed.

Lemma toggles_commute_witness :
  toggleSetting KtorEnabled (Resolved tt)
    (toggleSetting KblockAds (Rejected "disk full") initial)
  = toggleSetting KblockAds (Rejected "disk full")
      (toggleSetting KtorEnabled (Resolved tt) initial).
Proof.
  apply toggles_commute. discriminate.
Defined.

(** [loadSettings] gives each toggle the value the backend sent under
    its key, and, for a key the answer lacks, the value the panel starts
    with; it leaves the gates alone, and a rejected call changes
    nothing. *)
Theorem loadSettings_falls_back_to_initial_values
    (b : BackendSettings) (st : Panel) :
  (forall key : SettingKey,
      get key (settings (loadSettings (Resolved b) st))
      = match backend_value key b with
        | Some v => v
        | None => get key (settings initial)
        end)
  /\ isAuthenticated (loadSettings (Resolved b) st) = isAuthenticated st
  /\ isLogsAuthenticated (loadSettings (Resolved b) st) = isLogsAuthenticated st
  /\ (forall e : string, loadSettings (Rejected e) st = st).
Proof.
  split; [|repeat split].
  intros key. destruct key; simpl; unfold nullish;
    match goal with |- context [match ?x with _ => _ end] => destruct x end;
    reflexivity.
Qed.

End TogglesMore.

(** ** The whitelist *)

Section WhitelistMore.
Import SettingsPanel.

Lemma filter_drops_added (d : string) (w : list string) :
  ~ In d w ->
  filter (fun x => negb (String.eqb x d)) (w ++ [d]) = w.
Proof.
  intros H. rewrite filter_app. simpl. rewrite String.eqb_refl. simpl.
  rewrite app_nil_r. induction w as [|x w IH]; simpl; [reflexivity|].
  destruct (String.eqb x d) eqn:E.
  - exfalso. apply H. left. apply String.eqb_eq, E.
  - simpl. rewrite IH; [reflexivity|]. intros K. apply H. right. exact K.
Qed.

(** Adding a domain that is not listed and removing it again gives back
    the list as it was; the domain stored and removed is the trimmed
    input, and the input field is emptied by the addition. *)
Theorem whitelist_add_then_remove (w : list string) (input : string) :
  let st := {| whitelist := w; newDomain := input |} in
  let added := addToWhitelist st (Resolved tt) st in
  JS.trim input <> "" -> ~ In (JS.trim input) w ->
  added = {| whitelist := w ++ [JS.trim input]; newDomain := "" |}
  /\ removeFromWhitelist added (JS.trim input) (Resolved tt) added
     = {| whitelist := w; newDomain := "" |}.
Proof.
  cbv zeta. intros Hne Hnew. unfold addToWhitelist. simpl.
  destruct (JS.trim input) as [|c r] eqn:T; [contradiction|]. simpl.
  split; [reflexivity|].
  unfold removeFromWhitelist. simpl. rewrite filter_drops_added by exact Hnew.
  reflexivity.
Qed.

Lemma whitelist_add_then_remove_witness :
  let st := {| whitelist := ["a.org"]; newDomain := "  example.com " |} in
  let added := addToWhitelist st (Resolved tt) st in
  whitelist added = ["a.org"; "example.com"]
  /\ removeFromWhitelist added "example.com" (Resolved tt) added
     = {| whitelist := ["a.org"]; newDomain := "" |}.
Proof.
  cbv zeta.
  destruct (whitelist_add_then_remove ["a.org"] "  example.com ") as [A R].
  - discriminate.
  - simpl. intros [H|H]; [discriminate H | exact H].
  - split; [rewrite A; reflexivity | exact R].
Defined.

(** A blank input asks nothing of the backend and changes nothing; a
    rejected call changes nothing either; and a removal leaves no copy
    of the domain in the list, however many there were. *)
Theorem whitelist_edges
    (rendered st : Whitelist) (domain : string) (answer : settled unit)
    (e : string) :
  (JS.trim (newDomain rendered) = "" ->
   addToWhitelist_request rendered = None
   /\ addToWhitelist rendered answer st = st)
  /\ addToWhitelist rendered (Rejected e) st = st
  /\ removeFromWhitelist rendered domain (Rejected e) st = st
  /\ ~ In domain (whitelist (removeFromWhitelist rendered domain (Resolved tt) st)).
Proof.
  split; [|split; [|split]].
  - intros H. unfold addToWhitelist_request, addToWhitelist. rewrite H.
    split; reflexivity.
  - unfold addToWhitelist. destruct (JS.truthy _); reflexivity.
  - reflexivity.
  - simpl. intros H. apply filter_In in H. destruct H as [_ H].
    rewrite String.eqb_refl in H. discriminate H.
Qed.

Lemma whitelist_edges_witness :
  let st := {| whitelist := ["a.org"]; newDomain := "   " |} in
  addToWhitelist_request st = None /\ addToWhitelist st (Resolved tt) st = st.
Proof.
  cbv zeta.
  destruct (whitelist_edges {| whitelist := ["a.org"]; newDomain := "   " |}
              {| whitelist := ["a.org"]; newDomain := "   " |}
              "a.org" (Resolved tt) "x") as [H _].
  apply H. reflexivity.
Defined.

(** Two additions started from the same rendered list: when both calls
    resolve, the list is the rendered list followed by the domain of the
    addition that settled last; the other domain is not in it. *)
Theorem whitelist_overlapping_additions
    (w : list string) (first second : string) (st : Whitelist) :
  JS.trim first <> "" -> JS.trim second <> "" ->
  let r1 := {| whitelist := w; newDomain := first |} in
  let r2 := {| whitelist := w; newDomain := second |} in
  whitelist (addToWhitelist r2 (Resolved tt) (addToWhitelist r1 (Resolved tt) st))
  = w ++ [JS.trim second].
Proof.
  intros H1 H2. cbv zeta. unfold addToWhitelist. simpl.
  destruct (JS.trim second); [contradiction|]. reflexivity.
Qed.

Lemma whitelist_overlapping_additions_witness :
  whitelist
    (addToWhitelist {| whitelist := []; newDomain := "b.org" |} (Resolved tt)
       (addToWhitelist {| whitelist := []; newDomain := "a.org" |} (Resolved tt)
          {| whitelist := []; newDomain := "b.org" |}))
  = ["b.org"].
Proof.
  apply (whitelist_overlapping_additions [] "a.org" "b.org"); discriminate.
Defined.

End WhitelistMore.

(** ** The remote shell, continued *)

Section ShellMore.
Import ITToolsPanel.

Lemma step_keeps_no_stale_id (st : Shell) (ev : ShellEvent) :
  (sshConnected st = false -> connectionId st = "") ->
  sshConnected (step st ev) = false -> connectionId (step st ev) = "".
Proof.
  intros H. destruct ev as [v|v| |answer|answer| |answer]; simpl.
  - exact H.
  - exact H.
  - exact H.
  - destruct answer; simpl; [discriminate | exact H].
  - destruct answer; simpl; [reflexivity | exact H].
  - unfold handleSshExecute_begin.
    destruct (negb (JS.truthy (JS.trim (sshCommand st)))); simpl; exact H.
  - destruct answer as [result|e]; simpl; [|exact H].
    destruct (present (stdout result)), (present (stderr result)); simpl; exact H.
Qed.

(** Whatever happens to the session, a disconnected shell holds no
    connection id; and a disconnection that the backend refuses leaves
    the session connected, with its id, and adds an error line. *)
Theorem disconnected_shell_has_no_id :
  (forall evs : list ShellEvent,
      sshConnected (run evs) = false -> connectionId (run evs) = "")
  /\ (forall (st : Shell) (e : string),
         let st' := step st (DisconnectSettled (Rejected e)) in
         sshConnected st' = sshConnected st
         /\ connectionId st' = connectionId st
         /\ sshOutput st' = sshOutput st ++ [String.append "Error: " e]).
Proof.
  split; [|intros st e; simpl; repeat split].
  intros evs. unfold run.
  assert (G : forall st,
             (sshConnected st = false -> connectionId st = "") ->
             sshConnected (fold_left step evs st) = false ->
             connectionId (fold_left step evs st) = "").
  { induction evs as [|ev evs IH]; intros st H; simpl; [exact H|].
    apply IH. apply step_keeps_no_stale_id. exact H. }
  apply G. reflexivity.
Qed.

Lemma disconnected_shell_has_no_id_witness :
  connectionId
    (run [TypeHost "a"; ConnectClicked; ConnectSettled (Resolved "c1");
          DisconnectSettled (Resolved tt)]) = "".
Proof.
  destruct disconnected_shell_has_no_id as [H _]. apply H. reflexivity.
Defined.

End ShellMore.

(** ** Network tools and the HTTP probe *)

Section ToolsMore.
Import ITToolsPanel.

(** The probe always ends with a result to show: the backend's when the
    call resolved, and when it was rejected a result with status code
    0, the error as status text, no header, no body and the URL that was
    asked for.  The three network tools instead keep the result they
    had when their call is rejected.  All of them end not busy. *)
Theorem probe_failure_becomes_a_result
    (rendered st : Tools) (e : string) :
  (forall answer : settled Types.HttpResult,
      exists r, httpResult (handleHttpRequest rendered answer st) = Some r
                /\ busy (handleHttpRequest rendered answer st) = false)
  /\ httpResult (handleHttpRequest rendered (Rejected e) st)
     = Some {| Types.http_url := httpUrl rendered; Types.statusCode := 0;
               Types.statusText := String.append "Error: " e;
               Types.headers := []; Types.body := None;
               Types.http_latencyMs := 0; Types.contentLength := None |}
  /\ handlePing (Rejected e) st = setBusy false st
  /\ handlePortScan (Rejected e) st = setBusy false st
  /\ handleDnsLookup (Rejected e) st = setBusy false st.
Proof.
  split; [|repeat split].
  intros [r|err]; simpl; eexists; split; reflexivity.
Qed.




End ToolsMore.

(** ** The download poll, continued *)

Section DownloadsMore.
Import DownloadManager.

Lemma count_cons (p : DownloadItem -> bool) (d : DownloadItem)
    (data : list DownloadItem) :
  count p (d :: data) = (if p d then 1 else 0) + count p data.
Proof.
  unfold count. simpl. destruct (p d); simpl List.length; lia.
Qed.

Lemma count_bounds (p : DownloadItem -> bool) (data : list DownloadItem) :
  0 <= count p data <= Z.of_nat (List.length data).
Proof.
  induction data as [|d data IH]; [unfold count; simpl; lia|].
  rewrite count_cons. simpl List.length. destruct (p d); lia.
Qed.

Lemma states_exclude (d : DownloadItem) :
  (if state_is "Pending" d then 1 else 0)
  + (if state_is "Downloading" d then 1 else 0)
  + (if state_is "Completed" d || state_is "Safe" d then 1 else 0)
  + (if state_is "Failed" d && error_mentions_threat d then 1 else 0) <= 1.
Proof.
  unfold state_is. destruct (state d) as [s|]; [|simpl; lia].
  destruct (String.eqb s "Pending") eqn:E1;
    [apply String.eqb_eq in E1; subst s; simpl; lia|].
  destruct (String.eqb s "Downloading") eqn:E2;
    [apply String.eqb_eq in E2; subst s; simpl; lia|].
  destruct (String.eqb s "Failed") eqn:E3;
    [apply String.eqb_eq in E3; subst s; simpl;
     destruct (error_mentions_threat d); lia|].
  simpl. destruct (String.eqb s "Completed" || String.eqb s "Safe"); lia.
Qed.

(** After a tick that resolved, every counter lies between 0 and the
    number of rows shown, and the four counters by state (pending, in
    progress, scanned, threats blocked) count disjoint sets of items:
    together they never exceed the total. *)
Theorem counters_bounded_by_total (data : list DownloadItem) (st : Manager) :
  let m := loadDownloads (Resolved data) st in
  total_downloads (stats m) = Z.of_nat (List.length (downloads m))
  /\ 0 <= pending (stats m) <= total_downloads (stats m)
  /\ 0 <= in_progress (stats m) <= total_downloads (stats m)
  /\ 0 <= total_scanned (stats m) <= total_downloads (stats m)
  /\ 0 <= threats_blocked (stats m) <= total_downloads (stats m)
  /\ pending (stats m) + in_progress (stats m) + total_scanned (stats m)
     + threats_blocked (stats m) <= total_downloads (stats m).
Proof.
  simpl. split; [rewrite length_map; reflexivity|].
  split; [apply count_bounds|]. split; [apply count_bounds|].
  split; [apply count_bounds|]. split; [apply count_bounds|].
  induction data as [|d data IH]; [unfold count; simpl; lia|].
  rewrite !count_cons. simpl List.length.
  pose proof (states_exclude d). lia.
Qed.

End DownloadsMore.

(** ** The port list, continued *)

Section PortsMore.
Import ITToolsPanel.

Lemma digit_cases (c : ascii) :
  is_digit c = true ->
  c = "0"%char \/ c = "1"%char \/ c = "2"%char \/ c = "3"%char
  \/ c = "4"%char \/ c = "5"%char \/ c = "6"%char \/ c = "7"%char
  \/ c = "8"%char \/ c = "9"%char.
Proof.
  destruct c as [[] [] [] [] [] [] [] []]; intros H; vm_compute in H;
    try discriminate H; tauto.
Qed.

Ltac digit c H :=
  let D := fresh "D" in
  pose proof (digit_cases c H) as D;
  repeat (destruct D as [D|D]; [subst c|]); [..|subst c].

Lemma decimal_uint (d : Decimal.uint) :
  decimal (NilEmpty.string_of_uint d) = true.
Proof.
  induction d; simpl; auto.
Qed.

Lemma dropSpace_digit (back : bool) (c : ascii) (r : string) :
  is_digit c = true -> JS.dropSpace back (String c r) = String c r.
Proof.
  intros H. digit c H;
    (destruct r as [|b r2]; [reflexivity|];
     destruct r2 as [|e r3];
     destruct back; unfold JS.dropSpace, JS.ws1, JS.ws2, JS.ws3; simpl;
     rewrite ?andb_false_r; simpl; rewrite ?andb_false_r; reflexivity).
Qed.

Lemma dropSpace_decimal (back : bool) (s : string) :
  decimal s = true -> JS.dropSpace back s = s.
Proof.
  destruct s as [|c r]; [reflexivity|]. simpl. intros H.
  apply andb_true_iff in H. destruct H as [H _].
  apply dropSpace_digit, H.
Qed.

Lemma rev_onto_twice (s a b : string) :
  JS.rev_onto a (JS.rev_onto b s) = JS.rev_onto (String.append s a) b.
Proof.
  revert a b. induction s as [|c s IH]; intros a b; simpl; [reflexivity|].
  rewrite IH. reflexivity.
Qed.

Lemma append_empty (s : string) : String.append s "" = s.
Proof.
  induction s as [|c s IH]; simpl; [reflexivity | rewrite IH; reflexivity].
Qed.

Lemma reverse_twice (s : string) : JS.reverse (JS.reverse s) = s.
Proof.
  unfold JS.reverse. rewrite rev_onto_twice. simpl. apply append_empty.
Qed.

Lemma decimal_rev_onto (s acc : string) :
  decimal acc = true -> decimal s = true -> decimal (JS.rev_onto acc s) = true.
Proof.
  revert acc. induction s as [|c s IH]; intros acc Ha Hs; simpl; [exact Ha|].
  simpl in Hs. apply andb_true_iff in Hs. destruct Hs as [Hc Hs].
  apply IH; [|exact Hs]. simpl. rewrite Hc, Ha. reflexivity.
Qed.

Lemma trim_decimal (s : string) : decimal s = true -> JS.trim s = s.
Proof.
  intros H. unfold JS.trim. rewrite (dropSpace_decimal false s H).
  rewrite dropSpace_decimal; [apply reverse_twice|].
  apply decimal_rev_onto; [reflexivity | exact H].
Qed.

Lemma parseInt_decimal (s : string) :
  decimal s = true -> JS.parseInt s = JS.digits 10 None s.
Proof.
  intros H. unfold JS.parseInt. rewrite (dropSpace_decimal false s H).
  destruct s as [|c r]; [reflexivity|].
  simpl in H. apply andb_true_iff in H. destruct H as [Hc Hr].
  assert (M : forall v : JS.number, option_map (Z.mul 1) v = v).
  { intros [[|v|v]|]; reflexivity. }
  digit c Hc; try (cbv beta iota zeta; apply M).
  destruct r as [|b r2]; [reflexivity|].
  simpl in Hr. apply andb_true_iff in Hr. destruct Hr as [Hb _].
  digit b Hb; cbv beta iota zeta; apply M.
Qed.

Lemma digits_acc (d : Decimal.uint) (p : positive) :
  JS.digits 10 (Some (Zpos p)) (NilEmpty.string_of_uint d)
  = Some (Zpos (Pos.of_uint_acc d p)).
Proof.
  revert p.
  induction d; intros p;
    cbn [NilEmpty.string_of_uint JS.digits Pos.of_uint_acc]; [reflexivity|..];
    match goal with
    | |- context [JS.radix_digit 10 ?c] =>
        let v := eval vm_compute in (JS.radix_digit 10 c) in
        change (JS.radix_digit 10 c) with v
    end;
    cbv beta iota; rewrite <- IHd; do 2 f_equal; try reflexivity; lia.
Qed.

Lemma digits_zero (d : Decimal.uint) :
  JS.digits 10 (Some 0) (NilEmpty.string_of_uint d)
  = Some (Z.of_N (Pos.of_uint d)).
Proof.
  induction d; [reflexivity | exact IHd |..];
    cbn [NilEmpty.string_of_uint JS.digits Pos.of_uint];
    match goal with
    | |- context [JS.radix_digit 10 ?c] =>
        let v := eval vm_compute in (JS.radix_digit 10 c) in
        change (JS.radix_digit 10 c) with v
    end;
    cbv beta iota; apply digits_acc.
Qed.

Lemma digits_uint (d : Decimal.uint) :
  d <> Decimal.Nil ->
  JS.digits 10 None (NilEmpty.string_of_uint d) = Some (Z.of_N (Pos.of_uint d)).
Proof.
  intros H. rewrite <- digits_zero. destruct d; [contradiction|..]; reflexivity.
Qed.

Lemma to_uint_not_nil (n : N) : N.to_uint n <> Decimal.Nil.
Proof.
  destruct n as [|p]; simpl; [discriminate|].
  apply DecimalPos.Unsigned.to_uint_nonnil.
Qed.

Lemma toString_as_digits (n : N) :
  JS.toString n = NilEmpty.string_of_uint (N.to_uint n).
Proof.
  unfold JS.toString, NilZero.string_of_uint.
  pose proof (to_uint_not_nil n) as H.
  destruct (N.to_uint n); [contradiction|..]; reflexivity.
Qed.

Lemma toString_decimal (n : N) : decimal (JS.toString n) = true.
Proof. rewrite toString_as_digits. apply decimal_uint. Qed.

(** Reading back the decimal text of a number gives the number. *)
Lemma parseInt_toString (n : N) :
  JS.parseInt (JS.trim (JS.toString n)) = Some (Z.of_N n).
Proof.
  rewrite trim_decimal by apply toString_decimal.
  rewrite parseInt_decimal by apply toString_decimal.
  rewrite toString_as_digits, digits_uint by apply to_uint_not_nil.
  change (Pos.of_uint (N.to_uint n)) with (N.of_uint (N.to_uint n)).
  rewrite DecimalN.Unsigned.of_to. reflexivity.
Qed.





End PortsMore.

Section TabIds.
Import Types App.

Lemma toString_injective (n m : N) : JS.toString n = JS.toString m -> n = m.
Proof.
  intros H.
  assert (K : Some (Z.of_N n) = Some (Z.of_N m)).
  { rewrite <- !parseInt_toString, H. reflexivity. }
  injection K as K. lia.
Qed.

Lemma NoDup_ids_filter (p : Tab -> bool) (ts : list Tab) :
  NoDup (map id ts) -> NoDup (map id (filter p ts)).
Proof.
  induction ts as [|t ts IH]; intros H; simpl; [constructor|].
  inversion H as [|x l Hx Hl]; subst.
  destruct (p t); simpl; [|apply IH, Hl].
  constructor; [|apply IH, Hl].
  intros K. apply Hx. apply in_map_iff in K. destruct K as [u [E Hu]].
  apply filter_In in Hu. rewrite <- E. apply in_map. apply Hu.
Qed.

(** Tab ids stay pairwise different: closing and selecting always keep
    them so, and opening a tab keeps them so when the text of the clock
    value is not yet the id of a tab, which holds in particular when the
    clock value differs from those of the tabs opened before, different
    clock values having different texts. *)
Theorem tab_ids_stay_distinct (st : TabState) (now : N) :
  NoDup (map id (tabs st)) ->
  (forall tabId, NoDup (map id (tabs (closeTab tabId now st))))
  /\ (forall i, NoDup (map id (tabs (selectTab i st))))
  /\ (~ In (JS.toString now) (map id (tabs st)) ->
      NoDup (map id (tabs (addTab now st))))
  /\ (forall m : N, JS.toString m = JS.toString now -> m = now).
Proof.
  intros H. split; [|split; [|split]].
  - intros tabId. simpl. unfold closeTab_setTabs.
    destruct (filter _ (tabs st)) as [|t ts] eqn:F; simpl Nat.eqb; cbv iota.
    + simpl. constructor; [intros K; exact K | constructor].
    + rewrite <- F. apply NoDup_ids_filter, H.
  - intros i. unfold selectTab. destruct (nth_error (tabs st) i); exact H.
  - intros K. simpl. rewrite map_app. simpl.
    apply NoDup_app; [exact H | constructor; [intros X; exact X | constructor] |].
    intros x Hx [Hy|[]]. apply K. rewrite Hy. exact Hx.
  - intros m. apply toString_injective.
Qed.

Lemma tab_ids_stay_distinct_witness :
  NoDup (map id (tabs (addTab 7 (run [Open 5; Open 6])))).
Proof.
  destruct (tab_ids_stay_distinct (run [Open 5; Open 6]) 7) as [_ [_ [H _]]].
  - simpl. repeat constructor; simpl; intuition discriminate.
  - apply H. simpl. intuition discriminate.
Defined.

End TabIds.

(** ** The virtual keyboard, continued *)

Section KeyboardMore.
Import VirtualKeyboard.

Lemma removelast_snoc {A : Type} (l : list A) (x : A) :
  removelast (l ++ [x]) = l.
Proof.
  induction l as [|y l IH]; [reflexivity|].
  simpl. rewrite IH. destruct (l ++ [x]) eqn:E; [|reflexivity].
  apply app_eq_nil in E. destruct E as [_ E]. discriminate E.
Qed.

(** A Backspace right after a character that came with its code, after
    a space, or after a character taken from a one-unit key, gives back
    the state from before the character. *)
Theorem backspace_undoes_last_key
    (key key' : text) (c unit : Z) (st : Keyboard) :
  press (press st (key, Resolved (Character (Some c)))) (key', Resolved Backspace)
  = st
  /\ press (press st (key, Resolved Space)) (key', Resolved Backspace) = st
  /\ press (press st ([unit], Resolved (Character None))) (key', Resolved Backspace)
     = st.
Proof.
  destruct st as [sh ca shf buf]. unfold press, handleKeyPress, setInputValue.
  simpl. rewrite !slice_drops_last. unfold fromCharCode, text_of. simpl.
  rewrite !removelast_snoc. repeat split.
Qed.

Lemma code_units_slice (from to : Z) (t : text) :
  code_units t -> code_units (JS.slice from to t).
Proof.
  unfold code_units, JS.slice. intros H.
  set (k := if from <? 0
            then Z.max (Z.of_nat (List.length t) + from) 0
            else Z.min from (Z.of_nat (List.length t))) in *.
  set (e := if to <? 0
            then Z.max (Z.of_nat (List.length t) + to) 0
            else Z.min to (Z.of_nat (List.length t))) in *.
  cbv zeta. rewrite Forall_forall in *.
  intros u Hu. apply H.
  rewrite <- (firstn_skipn (Z.to_nat k) t). apply in_or_app. right.
  rewrite <- (firstn_skipn (Z.to_nat (Z.max (e - k) 0))
                (skipn (Z.to_nat k) t)).
  apply in_or_app. left. exact Hu.
Qed.

Lemma press_keeps_code_units (st : Keyboard) (k : text * settled KeyResult) :
  code_units (fst k) -> code_units (inputValue st) ->
  code_units (inputValue (press st k)).
Proof.
  destruct k as [key answer]. simpl fst. intros Hk H.
  unfold press. simpl fst at 2. simpl snd.
  destruct answer as [[c| | | |modifier active|]|e]; simpl.
  - apply Forall_app. split; [exact H|].
    destruct c as [n|]; [|exact Hk].
    unfold fromCharCode. constructor; [|constructor].
    apply Z.mod_pos_bound. lia.
  - apply code_units_slice, H.
  - exact H.
  - apply Forall_app. split; [exact H|].
    unfold text_of. simpl. constructor; [vm_compute; split; [discriminate | reflexivity]|constructor].
  - destruct (String.eqb modifier "Shift"); [exact H|].
    destruct (String.eqb modifier "CapsLock"); exact H.
  - exact H.
  - exact H.
Qed.

(** If the keys of the layout are texts of code units, so is the text
    typed, whatever codes the backend sends with its characters: a code
    outside [0, 65535] is reduced modulo [2^16]. *)
Theorem typed_text_is_code_units
    (ks : list (text * settled KeyResult)) (st : Keyboard) :
  Forall (fun k => code_units (fst k)) ks ->
  code_units (inputValue st) ->
  code_units (inputValue (presses ks st)).
Proof.
  unfold presses. revert st.
  induction ks as [|k ks IH]; intros st Hk H; simpl; [exact H|].
  inversion Hk as [|x l Hx Hl]; subst.
  apply IH; [exact Hl|]. apply press_keeps_code_units; assumption.
Qed.

Lemma typed_text_is_code_units_witness :
  code_units
    (inputValue
       (presses [(text_of "a", Resolved (Character (Some 70000)));
                 (text_of "b", Resolved (Character None))] initial)).
Proof.
  apply typed_text_is_code_units.
  - repeat constructor; vm_compute; intuition discriminate.
  - constructor.
Defined.

End KeyboardMore.

(** ** The download dialog *)

Section DownloadPanelMore.
Import DownloadPanel.

(** A video download never asks for an empty file name: a missing or
    empty title becomes [video].  The execution of a download and the
    reload of the list are asked for only after the creation resolved,
    the execution with the id the creation returned. *)
Theorem video_download_calls (video : DetectedMedia) (answer : settled Download) :
  video_filename video <> ""
  /\ (forall c r, title video = Some (String c r) ->
                  video_filename video = String c r)
  /\ hd_error (downloadVideo video answer)
     = Some (download_video (media_url video) (video_filename video))
  /\ (forall i, In (execute_download i) (downloadVideo video answer) ->
                exists d, answer = Resolved d /\ i = id d)
  /\ (In get_downloads (downloadVideo video answer) ->
      exists d, answer = Resolved d).
Proof.
  split; [|split; [|split; [|split]]].
  - unfold video_filename. destruct (title video) as [[|c r]|]; discriminate.
  - intros c r H. unfold video_filename. rewrite H. reflexivity.
  - reflexivity.
  - intros i H. destruct answer as [d|e]; simpl in H.
    + destruct H as [H|[H|[H|[]]]]; try discriminate H.
      injection H as H. exists d. split; [reflexivity | symmetry; exact H].
    + destruct H as [H|[]]. discriminate H.
  - intros H. destruct answer as [d|e]; simpl in H.
    + exists d. reflexivity.
    + destruct H as [H|[]]. discriminate H.
Qed.

Lemma video_download_calls_witness :
  exists d,
    Resolved {| id := "d7"; url := "u"; filename := "video"; save_path := "/tmp";
                size_total := None; size_downloaded := 0; state := "Pending";
                speed_bps := 0; error := None |} = Resolved d
    /\ "d7" = id d.
Proof.
  destruct (video_download_calls
              {| media_id := "m"; title := Some ""; media_url := "u";
                 page_url := "p"; media_type := "mp4"; duration := None |}
              (Resolved {| id := "d7"; url := "u"; filename := "video";
                           save_path := "/tmp"; size_total := None;
                           size_downloaded := 0; state := "Pending";
                           speed_bps := 0; error := None |}))
    as [_ [_ [_ [H _]]]].
  apply H. simpl. right. left. reflexivity.
Defined.

End DownloadPanelMore.

(** ** The search box of the new tab page *)

Section NewTabPageMore.

(** The search box hands its text over untrimmed, and nothing at all when
    the text is blank: a text typed with a space in front is therefore
    searched for, even when the rest is an address. *)
Theorem search_box_passes_untrimmed_text (q : string) :
  (JS.trim q = "" -> NewTabPage.handleSearch q = None)
  /\ (JS.trim q <> "" -> NewTabPage.handleSearch q = Some q)
  /\ (forall u, NewTabPage.handleSearch (String " " q) = Some u ->
                App.finalUrl u
                = String.append "https://duckduckgo.com/?q=%20"
                    (JS.encodeURIComponent q)).
Proof.
  unfold NewTabPage.handleSearch. split; [|split].
  - intros H. rewrite H. reflexivity.
  - intros H. destruct (JS.trim q); [contradiction | reflexivity].
  - intros u H.
    destruct (JS.truthy (JS.trim (String " " q))); [|discriminate H].
    injection H as <-. unfold App.finalUrl.
    assert (S : JS.includes " " (String " " q) = true).
    { simpl. destruct q; reflexivity. }
    rewrite S, orb_true_r. reflexivity.
Qed.

Lemma search_box_passes_untrimmed_text_witness :
  NewTabPage.handleSearch "   " = None
  /\ App.finalUrl " example.com" = "https://duckduckgo.com/?q=%20example.com".
Proof.
  destruct (search_box_passes_untrimmed_text "   ") as [H _].
  destruct (search_box_passes_untrimmed_text "example.com") as [_ [_ K]].
  split; [apply H; reflexivity|].
  apply K. reflexivity.
Defined.

End NewTabPageMore.
